(** * Traffic-light detector node (ros/src/tl_detector/tl_detector.py)

    A shallow embedding of the [TLDetector] class: the message handlers
    [pose_cb], [waypoints_cb], [traffic_cb] and [image_cb], the helpers
    [get_closest_waypoint], [get_light_state] and [process_traffic_lights],
    and the debounce logic at the end of [image_cb].

    Modelling conventions.
    - Python floats (coordinates, clock readings) are the values of an
      interface [PyFloat] whose operations are the ones the source applies,
      in the order it applies them: [+], [-], [*], [abs], [<], [** 2] and
      [** 0.5], and the double a numeric literal denotes.  The two powers
      may raise (a square that overflows raises OverflowError).  Nothing is
      assumed about rounding; a theorem that needs a law of the order says
      so.  [doubles] is the instance on binary64 floats, on which the
      concrete runs are evaluated.
    - Python ints are [Z]; [None] is the [None] of an [option].
    - A handler mutates [self], may publish on /traffic_waypoint, may call
      the classifier and may raise: it is a function from the object to an
      outcome, the mutated object and the list of effects it performed.  A
      raised exception keeps the mutations done before it.
    - What lives outside the file (the classifier, the heading computed by
      the tf library, the numeric ids of [TrafficLight.RED] and
      [TrafficLight.UNKNOWN]) is a parameter. *)

From Stdlib Require Import ZArith QArith List Bool Lia.
From Stdlib Require PrimFloat Uint63 FloatOps FloatAxioms SpecFloat.
Import ListNotations.

Open Scope Z_scope.

(** ** Outcomes and exceptions *)

Inductive exn : Set :=
| TypeError            (* unpacking [None] into two names *)
| AttributeError       (* attribute access on [None] or on a missing attribute *)
| UnboundLocalError    (* a local read before any assignment *)
| OverflowError        (* a float power whose result is out of range *)
| ClassifierFault      (* anything raised by the bridge or the classifier *)
| SerializationError.  (* publishing an [Int32] whose data is [None] *)

Inductive res (A : Type) : Type :=
| Ok (a : A)
| Raise (e : exn).
Arguments Ok {A} a.
Arguments Raise {A} e.

(** ** Python floats *)

Record PyFloat : Type := mkPyFloat {
  float : Type;
  flit : Q -> float;                 (* the double a numeric literal denotes *)
  fadd : float -> float -> float;    (* a + b *)
  fsub : float -> float -> float;    (* a - b *)
  fmul : float -> float -> float;    (* a * b *)
  fabs : float -> float;             (* abs(a) *)
  flt : float -> float -> bool;      (* a < b, also written b > a *)
  fpow2 : float -> res float;        (* a ** 2 *)
  fpow_half : float -> res float     (* a ** 0.5 *)
}.

(** *** Binary64 floats

    Sums, differences, products, absolute values and comparisons are the
    IEEE operations.  A literal is the quotient of its numerator and
    denominator (both below 2^53 in every literal used), which rounds once,
    as parsing does.  The two powers are
    taken correctly rounded: the square is the rounded product, and raises
    OverflowError when a finite operand gives an infinite result, as
    [float.__pow__] does; the power [0.5] is the rounded square root.  The
    concrete runs use coordinates whose squares and roots are exact. *)

Definition Z_to_double (z : Z) : PrimFloat.float :=
  match z with
  | Z0 => PrimFloat.zero
  | Zpos p => PrimFloat.of_uint63 (Uint63.of_Z (Zpos p))
  | Zneg p => PrimFloat.opp (PrimFloat.of_uint63 (Uint63.of_Z (Zpos p)))
  end.

Definition double_lit (q : Q) : PrimFloat.float :=
  PrimFloat.div (Z_to_double (Qnum q)) (Z_to_double (Zpos (Qden q))).

Definition double_pow2 (a : PrimFloat.float) : res PrimFloat.float :=
  let r := PrimFloat.mul a a in
  if PrimFloat.is_infinity r && negb (PrimFloat.is_infinity a)
  then Raise OverflowError
  else Ok r.

Definition double_pow_half (a : PrimFloat.float) : res PrimFloat.float :=
  Ok (PrimFloat.sqrt a).

Definition doubles : PyFloat :=
  {| float := PrimFloat.float;
     flit := double_lit;
     fadd := PrimFloat.add;
     fsub := PrimFloat.sub;
     fmul := PrimFloat.mul;
     fabs := PrimFloat.abs;
     flt := PrimFloat.ltb;
     fpow2 := double_pow2;
     fpow_half := double_pow_half |}.

Definition STATE_COUNT_THRESHOLD : Z := 3.

Section Detector.

(** The float arithmetic the node runs on. *)
Variable F : PyFloat.

(** Camera frames are opaque. *)
Variable Image : Type.

(** [bridge.imgmsg_to_cv2] followed by [light_classifier.get_classification]:
    a colour id, or a fault. *)
Variable get_classification : Image -> res Z.

(** [TrafficLight.RED] and [TrafficLight.UNKNOWN] of styx_msgs. *)
Variable RED : Z.
Variable UNKNOWN : Z.

(** ** Messages *)

(** geometry_msgs position: only x and y are read. *)
Record Point : Type := mkPoint { px : float F; py : float F }.

(** The vehicle pose.  [cos_yaw] and [sin_yaw] stand for
    [math.cos(theta)] and [math.sin(theta)] where [theta] is the yaw that
    [tf.transformations.euler_from_quaternion] extracts from the
    orientation. *)
Record PoseStamped : Type := mkPose {
  position : Point;
  cos_yaw : float F;
  sin_yaw : float F
}.

(** A lane waypoint and a traffic light: only their positions are read. *)
Record Waypoint : Type := mkWaypoint { wp_position : Point }.
Record TrafficLight : Type := mkLight { light_position : Point }.

(** The parsed /traffic_light_config document. *)
Record Config : Type := mkConfig {
  is_site : bool;
  stop_line_positions : list (float F * float F)
}.

(** ** The node object *)

Record TLDetector : Type := mkTLDetector {
  pose : option PoseStamped;
  waypoints : option (list Waypoint);
  got_waypoints : bool;
  camera_image : option Image;
  has_image : option bool;        (* [None]: attribute not created yet *)
  lights : list TrafficLight;
  last_image_time : float F;
  processing_image : bool;
  state : Z;
  last_state : Z;
  last_wp : option Z;             (* [Some w]: the int [w]; [None]: Python [None] *)
  state_count : Z;
  config : Config;
  site : bool;
  max_look_ahead_distance : float F;
  min_look_ahead_distance : float F
}.

(** What a handler does to the outside. *)
Inductive effect : Type :=
| Publish (data : Z)                    (* upcoming_red_light_pub.publish(Int32(data)) *)
| Classify (img : Image) (busy : bool). (* a classifier call, with [processing_image] at that moment *)

(** ** The handler monad: state, exceptions, effect log *)

Definition M (A : Type) : Type := TLDetector -> res A * TLDetector * list effect.

Definition ret {A} (a : A) : M A := fun self => (Ok a, self, []).
Definition raise {A} (e : exn) : M A := fun self => (Raise e, self, []).
Definition bind {A B} (m : M A) (k : A -> M B) : M B :=
  fun self =>
    match m self with
    | (Ok a, self1, l1) =>
        match k a self1 with
        | (r, self2, l2) => (r, self2, l1 ++ l2)
        end
    | (Raise e, self1, l1) => (Raise e, self1, l1)
    end.
Definition get : M TLDetector := fun self => (Ok self, self, []).
Definition modify (f : TLDetector -> TLDetector) : M unit :=
  fun self => (Ok tt, f self, []).
Definition emit (e : effect) : M unit := fun self => (Ok tt, self, [e]).
Definition lift {A} (r : res A) : M A := fun self => (r, self, []).

Notation "x <- m ;; k" := (bind m (fun x => k))
  (at level 61, m at next level, right associativity).
Notation "m ;;; k" := (bind m (fun _ => k))
  (at level 61, right associativity).

(** Field updates ([self.f = v]). *)
Definition set_pose v (s : TLDetector) :=
  mkTLDetector v (waypoints s) (got_waypoints s) (camera_image s) (has_image s)
    (lights s) (last_image_time s) (processing_image s) (state s) (last_state s)
    (last_wp s) (state_count s) (config s) (site s)
    (max_look_ahead_distance s) (min_look_ahead_distance s).
Definition set_waypoints v (s : TLDetector) :=
  mkTLDetector (pose s) v (got_waypoints s) (camera_image s) (has_image s)
    (lights s) (last_image_time s) (processing_image s) (state s) (last_state s)
    (last_wp s) (state_count s) (config s) (site s)
    (max_look_ahead_distance s) (min_look_ahead_distance s).
Definition set_got_waypoints v (s : TLDetector) :=
  mkTLDetector (pose s) (waypoints s) v (camera_image s) (has_image s)
    (lights s) (last_image_time s) (processing_image s) (state s) (last_state s)
    (last_wp s) (state_count s) (config s) (site s)
    (max_look_ahead_distance s) (min_look_ahead_distance s).
Definition set_camera_image v (s : TLDetector) :=
  mkTLDetector (pose s) (waypoints s) (got_waypoints s) v (has_image s)
    (lights s) (last_image_time s) (processing_image s) (state s) (last_state s)
    (last_wp s) (state_count s) (config s) (site s)
    (max_look_ahead_distance s) (min_look_ahead_distance s).
Definition set_has_image v (s : TLDetector) :=
  mkTLDetector (pose s) (waypoints s) (got_waypoints s) (camera_image s) v
    (lights s) (last_image_time s) (processing_image s) (state s) (last_state s)
    (last_wp s) (state_count s) (config s) (site s)
    (max_look_ahead_distance s) (min_look_ahead_distance s).
Definition set_lights v (s : TLDetector) :=
  mkTLDetector (pose s) (waypoints s) (got_waypoints s) (camera_image s) (has_image s)
    v (last_image_time s) (processing_image s) (state s) (last_state s)
    (last_wp s) (state_count s) (config s) (site s)
    (max_look_ahead_distance s) (min_look_ahead_distance s).
Definition set_last_image_time v (s : TLDetector) :=
  mkTLDetector (pose s) (waypoints s) (got_waypoints s) (camera_image s) (has_image s)
    (lights s) v (processing_image s) (state s) (last_state s)
    (last_wp s) (state_count s) (config s) (site s)
    (max_look_ahead_distance s) (min_look_ahead_distance s).
Definition set_state v (s : TLDetector) :=
  mkTLDetector (pose s) (waypoints s) (got_waypoints s) (camera_image s) (has_image s)
    (lights s) (last_image_time s) (processing_image s) v (last_state s)
    (last_wp s) (state_count s) (config s) (site s)
    (max_look_ahead_distance s) (min_look_ahead_distance s).
Definition set_last_state v (s : TLDetector) :=
  mkTLDetector (pose s) (waypoints s) (got_waypoints s) (camera_image s) (has_image s)
    (lights s) (last_image_time s) (processing_image s) (state s) v
    (last_wp s) (state_count s) (config s) (site s)
    (max_look_ahead_distance s) (min_look_ahead_distance s).
Definition set_last_wp v (s : TLDetector) :=
  mkTLDetector (pose s) (waypoints s) (got_waypoints s) (camera_image s) (has_image s)
    (lights s) (last_image_time s) (processing_image s) (state s) (last_state s)
    v (state_count s) (config s) (site s)
    (max_look_ahead_distance s) (min_look_ahead_distance s).
Definition set_state_count v (s : TLDetector) :=
  mkTLDetector (pose s) (waypoints s) (got_waypoints s) (camera_image s) (has_image s)
    (lights s) (last_image_time s) (processing_image s) (state s) (last_state s)
    (last_wp s) v (config s) (site s)
    (max_look_ahead_distance s) (min_look_ahead_distance s).

(** ** [__init__]

    [now] is the reading of [rospy.get_time()] at construction and [cfg] the
    configuration found on the parameter server. *)
Definition init (now : float F) (cfg : Config) : TLDetector :=
  {| pose := None;
     waypoints := None;
     got_waypoints := false;
     camera_image := None;
     has_image := None;
     lights := [];
     last_image_time := now;
     processing_image := false;
     state := UNKNOWN;
     last_state := UNKNOWN;
     last_wp := Some (-1);
     state_count := 0;
     config := cfg;
     site := is_site cfg;
     max_look_ahead_distance := flit F 100;
     min_look_ahead_distance := flit F 25 |}.

(** ** [pose_cb], [waypoints_cb], [traffic_cb] *)

Definition pose_cb (msg : PoseStamped) : M unit :=
  modify (set_pose (Some msg)).

Definition waypoints_cb (wps : list Waypoint) : M unit :=
  self <- get ;;
  if negb (got_waypoints self) then
    modify (set_waypoints (Some wps)) ;;;
    modify (set_got_waypoints true)
  else ret tt.

Definition traffic_cb (ls : list TrafficLight) : M unit :=
  modify (set_lights ls).

(** ** [get_closest_waypoint]

    The loop over [range(len(self.waypoints))]: [point] is the current index,
    [ind] is [None] while the local [ind] is unbound. *)
Fixpoint closest_loop (p : Point) (wps : list Waypoint) (point : Z)
    (diff_x diff_y : float F) (ind : option Z) : option Z :=
  match wps with
  | [] => ind
  | w :: rest =>
      let x := fabs F (fsub F (px p) (px (wp_position w))) in
      let y := fabs F (fsub F (py p) (py (wp_position w))) in
      if flt F x diff_x && flt F y diff_y
      then closest_loop p rest (point + 1) x y (Some point)
      else closest_loop p rest (point + 1) diff_x diff_y ind
  end.

(** Returns [Ok (Some i)] for the int [i], [Ok None] for the bare [return],
    and raises when [return ind] reads the unbound local. *)
Definition get_closest_waypoint (p : Point) : M (option Z) :=
  self <- get ;;
  match waypoints self with
  | Some wps =>
      match closest_loop p wps 0 (flit F 1000000) (flit F 1000000) None with
      | Some ind => ret (Some ind)
      | None => raise UnboundLocalError
      end
  | None => ret None
  end.

(** ** [get_light_state]

    The argument [light] is never read.  [False] is returned as [0]: Python's
    [False] equals the int [0] in every comparison the caller makes.  The
    [try] block around the test of [self.light_classifier] cannot raise. *)
Definition get_light_state : M Z :=
  self <- get ;;
  match has_image self with
  | None => raise AttributeError
  | Some false => ret 0
  | Some true =>
      match camera_image self with
      | None => raise AttributeError
      | Some img =>
          emit (Classify img (processing_image self)) ;;;
          lift (get_classification img)
      end
  end.

(** ** [process_traffic_lights] *)

(** [((ax - bx)**2 + (ay - by)**2)**0.5], as on lines 211 and 232: the two
    squares left to right, their sum, its power [0.5]. *)
Definition distance (ax ay bx by_ : float F) : res (float F) :=
  match fpow2 F (fsub F ax bx) with
  | Raise e => Raise e
  | Ok sx =>
      match fpow2 F (fsub F ay by_) with
      | Raise e => Raise e
      | Ok sy => fpow_half F (fadd F sx sy)
      end
  end.

(** [light_orient] of line 212, the car at [(x, y)]. *)
Definition light_orient_of (x y : float F) (light : TrafficLight) : float F :=
  fsub F (fadd F (fsub F (px (light_position light)) x)
                 (py (light_position light))) y.

(** [car_orient] of line 213, from [x_in_front] and [y_in_front] of lines
    198-201. *)
Definition car_orient_of (p : PoseStamped) : float F :=
  let x := px (position p) in
  let x_in_front := fadd F x (fmul F (flit F 1) (cos_yaw p)) in
  let y := py (position p) in
  let y_in_front := fadd F y (fmul F (flit F 1) (sin_yaw p)) in
  fsub F (fadd F (fsub F x_in_front x) y_in_front) y.

(** Lines 208-222 for one light, the car at [(x, y)]: the distance, which
    may raise, then the three comparisons. *)
Definition light_in_view (self : TLDetector) (x y car_orient : float F)
    (light : TrafficLight) : res bool :=
  let light_x := px (light_position light) in
  let light_y := py (light_position light) in
  match distance light_x light_y x y with
  | Raise e => Raise e
  | Ok light_distance =>
      let light_orient := light_orient_of x y light in
      Ok (flt F light_distance (max_look_ahead_distance self)
          && flt F (min_look_ahead_distance self) light_distance
          && flt F (flit F 1) (fmul F car_orient light_orient))
  end.

(** The loop over [self.config['stop_line_positions']]: the running minimum
    and the stop pose found so far. *)
Fixpoint stop_line_loop (light_x light_y : float F)
    (stop_lines : list (float F * float F))
    (minimum : float F) (light_stop_pose : Point) : res Point :=
  match stop_lines with
  | [] => Ok light_stop_pose
  | stop_line :: rest =>
      match distance light_x light_y (fst stop_line) (snd stop_line) with
      | Raise e => Raise e
      | Ok d =>
          if flt F d minimum
          then stop_line_loop light_x light_y rest d
                 (mkPoint (fst stop_line) (snd stop_line))
          else stop_line_loop light_x light_y rest minimum light_stop_pose
      end
  end.

(** The stop pose computed on lines 227-236 for a light: the minimum starts
    at [1e6], the pose at the default [Pose()]. *)
Definition stop_pose_of (light : TrafficLight) (self : TLDetector)
    : res Point :=
  stop_line_loop (px (light_position light)) (py (light_position light))
    (stop_line_positions (config self)) (flit F 1000000)
    (mkPoint (flit F 0) (flit F 0)).

(** The body run for the light that passes the test, up to the [break]. *)
Definition light_found (light : TrafficLight) : M (option Z * Z) :=
  pred_state <- get_light_state ;;
  self <- get ;;
  light_stop_pose <- lift (stop_pose_of light self) ;;
  light_stop_wp <- get_closest_waypoint light_stop_pose ;;
  ret (light_stop_wp, pred_state).

(** The loop over [self.lights]: [Some (light_stop_wp, pred_state)] when a
    light was found, [None] when the loop ran to its end. *)
Fixpoint lights_loop (x y car_orient : float F) (ls : list TrafficLight)
    : M (option (option Z * Z)) :=
  match ls with
  | [] => ret None
  | light :: rest =>
      self <- get ;;
      in_view <- lift (light_in_view self x y car_orient light) ;;
      if in_view : bool
      then r <- light_found light ;; ret (Some r)
      else lights_loop x y car_orient rest
  end.

(** [Ok None] is the bare [return]; [Ok (Some (wp, state))] the pair. *)
Definition process_traffic_lights : M (option (option Z * Z)) :=
  self <- get ;;
  match waypoints self with
  | None => ret None
  | Some _ =>
      if negb (site self) then
        match pose self with
        | None => raise AttributeError
        | Some p =>
            found <- lights_loop (px (position p)) (py (position p))
                       (car_orient_of p) (lights self) ;;
            match found with
            | None => ret (Some (Some (-1), 4))
            | Some r => ret (Some r)
            end
        end
      else
        light_stop_wp <- get_closest_waypoint
                           (mkPoint (flit F 8) (flit F (81 # 5))) ;;
        pred_state <- get_light_state ;;
        ret (Some (light_stop_wp, pred_state))
  end.

(** ** [image_cb] *)

(** [upcoming_red_light_pub.publish(Int32(v))]. *)
Definition publish (v : option Z) : M unit :=
  match v with
  | Some data => emit (Publish data)
  | None => raise SerializationError
  end.

(** The three branches of lines 111-124. *)
Inductive branch : Set := Branch1 | Branch2 | Branch3.

Definition which_branch (self : TLDetector) (state_in : Z) : branch :=
  if negb (state self =? state_in) then Branch1
  else if STATE_COUNT_THRESHOLD <=? state_count self then Branch2
  else Branch3.

Definition debounce_branches (light_wp : option Z) (state_in : Z) : M unit :=
  self <- get ;;
  if negb (state self =? state_in) then
    modify (set_state_count 0) ;;;
    modify (set_state state_in)
  else if STATE_COUNT_THRESHOLD <=? state_count self then
    (if negb (state self =? last_state self)
     then modify (set_last_state (state self))
     else ret tt) ;;;
    let light_wp := if state_in =? RED then light_wp else Some (-1) in
    modify (set_last_wp light_wp) ;;;
    publish light_wp
  else
    publish (last_wp self).

(** Lines 111-125: the branches, then [self.state_count += 1]. *)
Definition debounce (light_wp : option Z) (state_in : Z) : M unit :=
  debounce_branches light_wp state_in ;;;
  self <- get ;;
  modify (set_state_count (state_count self + 1)).

(** The guard of line 91. *)
Definition accepts (self : TLDetector) (now_time : float F) : bool :=
  negb (processing_image self)
  && flt F (fadd F (last_image_time self) (flit F (1 # 10))) now_time.

(** [now_time] is the reading of [rospy.get_time()] on entry. *)
Definition image_cb (now_time : float F) (msg : Image) : M unit :=
  self <- get ;;
  if accepts self now_time then
    modify (set_last_image_time now_time) ;;;
    modify (set_has_image (Some true)) ;;;
    modify (set_camera_image (Some msg)) ;;;
    r <- process_traffic_lights ;;
    match r with
    | None => raise TypeError
    | Some (light_wp, state_in) => debounce light_wp state_in
    end
  else ret tt.

(** ** The node as a message loop

    Each subscriber callback runs to completion before the next one; an
    exception raised in a callback ends that callback only. *)
Inductive Msg : Type :=
| CurrentPose (msg : PoseStamped)
| BaseWaypoints (wps : list Waypoint)
| TrafficLights (ls : list TrafficLight)
| ImageColor (now_time : float F) (msg : Image).

Definition dispatch (m : Msg) : M unit :=
  match m with
  | CurrentPose msg => pose_cb msg
  | BaseWaypoints wps => waypoints_cb wps
  | TrafficLights ls => traffic_cb ls
  | ImageColor now_time msg => image_cb now_time msg
  end.

(** State after the messages, and the effects of all callbacks in order. *)
Fixpoint run (self : TLDetector) (msgs : list Msg) : TLDetector * list effect :=
  match msgs with
  | [] => (self, [])
  | m :: rest =>
      match dispatch m self with
      | (_, self1, l1) =>
          match run self1 rest with
          | (self2, l2) => (self2, l1 ++ l2)
          end
      end
  end.

(** The values sent on /traffic_waypoint, and the classifier calls. *)
Fixpoint published (l : list effect) : list Z :=
  match l with
  | [] => []
  | Publish data :: rest => data :: published rest
  | Classify _ _ :: rest => published rest
  end.

Fixpoint classified (l : list effect) : list (Image * bool) :=
  match l with
  | [] => []
  | Publish _ :: rest => classified rest
  | Classify img busy :: rest => (img, busy) :: classified rest
  end.

(** States the node can be in: from [init], after any messages. *)
Definition reachable (self : TLDetector) : Prop :=
  exists now cfg msgs, fst (run (init now cfg) msgs) = self.

(** ** Observing the debounce logic

    [feed] runs lines 111-125 on a sequence of raw readings
    [(light_wp, state)] and gives, per reading, the values published;
    [feed_branches] gives the branch each reading takes. *)
Fixpoint feed (self : TLDetector) (frames : list (Z * Z))
    : TLDetector * list (list Z) :=
  match frames with
  | [] => (self, [])
  | (light_wp, state_in) :: rest =>
      match debounce (Some light_wp) state_in self with
      | (_, self1, l1) =>
          match feed self1 rest with
          | (self2, outs) => (self2, published l1 :: outs)
          end
      end
  end.

Fixpoint feed_branches (self : TLDetector) (frames : list (Z * Z))
    : list branch :=
  match frames with
  | [] => []
  | (light_wp, state_in) :: rest =>
      which_branch self state_in
      :: feed_branches (snd (fst (debounce (Some light_wp) state_in self))) rest
  end.

(** [self] after lines 92-95 of an accepted frame. *)
Definition frame_stored (now_time : float F) (msg : Image) (self : TLDetector)
    : TLDetector :=
  set_camera_image (Some msg)
    (set_has_image (Some true) (set_last_image_time now_time self)).

(** The branch an image message takes, if it gets as far as line 111. *)
Definition image_branch (now_time : float F) (msg : Image) (self : TLDetector)
    : option branch :=
  if accepts self now_time then
    match process_traffic_lights (frame_stored now_time msg self) with
    | (Ok (Some (_, state_in)), self1, _) => Some (which_branch self1 state_in)
    | _ => None
    end
  else None.

Definition fired (m : Msg) (self : TLDetector) : option branch :=
  match m with
  | ImageColor now_time msg => image_branch now_time msg self
  | _ => None
  end.

Fixpoint run_branches (self : TLDetector) (msgs : list Msg)
    : list (option branch) :=
  match msgs with
  | [] => []
  | m :: rest =>
      fired m self :: run_branches (snd (fst (dispatch m self))) rest
  end.

(** A computation that leaves [self] as it found it and publishes nothing. *)
Definition read_only {A} (m : M A) : Prop :=
  forall self, snd (fst (m self)) = self /\ published (snd (m self)) = [].

(** The confirmed colour and the stored waypoint agree: unless the confirmed
    colour is red, the stored waypoint is the sentinel. *)
Definition red_or_sentinel (self : TLDetector) : Prop :=
  last_state self <> RED -> last_wp self = Some (-1).

(** The fields that only [__init__] assigns. *)
Definition same_constants (a b : TLDetector) : Prop :=
  config a = config b /\ site a = site b /\
  max_look_ahead_distance a = max_look_ahead_distance b /\
  min_look_ahead_distance a = min_look_ahead_distance b /\
  processing_image a = processing_image b.

(** The three stores filled by [pose_cb], [waypoints_cb] and [traffic_cb]. *)
Definition same_stores (a b : TLDetector) : Prop :=
  pose a = pose b /\ waypoints a = waypoints b /\
  got_waypoints a = got_waypoints b /\ lights a = lights b.

(** The per-axis distances [x] and [y] of lines 144-145, and the test of
    line 147 against the starting values [1e6]. *)
Definition x_gap (p : Point) (w : Waypoint) : float F :=
  fabs F (fsub F (px p) (px (wp_position w))).

Definition y_gap (p : Point) (w : Waypoint) : float F :=
  fabs F (fsub F (py p) (py (wp_position w))).

Definition within_start (p : Point) (w : Waypoint) : bool :=
  flt F (x_gap p w) (flit F 1000000) && flt F (y_gap p w) (flit F 1000000).

(** The fixed stop point of site mode, lines 243-245. *)
Definition site_stop_point : Point := mkPoint (flit F 8) (flit F (81 # 5)).

(** A value fit for /traffic_waypoint given the stored path: the sentinel,
    or an index into the path. *)
Definition valid_wp (path : option (list Waypoint)) (v : Z) : Prop :=
  v = -1 \/ exists wps, path = Some wps /\ 0 <= v < Z.of_nat (length wps).

(** No path is stored before [got_waypoints] is set, and [last_wp] is an int
    fit for publishing. *)
Definition store_invariant (self : TLDetector) : Prop :=
  (got_waypoints self = false -> waypoints self = None) /\
  exists v, last_wp self = Some v /\ valid_wp (waypoints self) v.

(** The points [get_closest_waypoint] can be asked about in simulator mode:
    a configured stop line, or the default pose at the origin. *)
Definition stop_candidate (self : TLDetector) (q : Point) : Prop :=
  q = mkPoint (flit F 0) (flit F 0) \/
  exists s, In s (stop_line_positions (config self)) /\
            q = mkPoint (fst s) (snd s).

(** [has_image] and [camera_image] are created together by the first
    accepted frame. *)
Definition frame_invariant (self : TLDetector) : Prop :=
  (has_image self = None /\ camera_image self = None) \/
  (has_image self = Some true /\ exists img, camera_image self = Some img).

(** The clock readings of the camera frames among [msgs], in order. *)
Definition frame_stamps (msgs : list Msg) : list (float F) :=
  flat_map (fun m => match m with
                     | ImageColor now_time _ => [now_time]
                     | _ => []
                     end) msgs.

(** The clock readings of the frames that pass the guard of [image_cb]
    while [msgs] are handled from [self], in order. *)
Fixpoint accepted_stamps (self : TLDetector) (msgs : list Msg)
    : list (float F) :=
  match msgs with
  | [] => []
  | m :: rest =>
      match m with
      | ImageColor now_time _ =>
          if accepts self now_time then [now_time] else []
      | _ => []
      end ++ accepted_stamps (snd (fst (dispatch m self))) rest
  end.

(** * Properties *)

(** ** The order of binary64 floats *)

Lemma SFltb_irrefl (f : SpecFloat.spec_float) : SpecFloat.SFltb f f = false.
Proof.
  unfold SpecFloat.SFltb, SpecFloat.SFcompare.
  destruct f as [s|s| |s m e]; try destruct s; try reflexivity;
    rewrite Z.compare_refl, ?Pos.compare_cont_refl; reflexivity.
Qed.

Lemma SFltb_trans (f1 f2 f3 : SpecFloat.spec_float) :
  SpecFloat.SFltb f1 f2 = true -> SpecFloat.SFltb f2 f3 = true ->
  SpecFloat.SFltb f1 f3 = true.
Proof.
  unfold SpecFloat.SFltb, SpecFloat.SFcompare.
  destruct f1 as [s1|s1| |s1 m1 e1], f2 as [s2|s2| |s2 m2 e2],
    f3 as [s3|s3| |s3 m3 e3];
    try destruct s1; try destruct s2; try destruct s3;
    try discriminate; try reflexivity; intros H12 H23.
  all: change (Pos.compare_cont Eq) with Pos.compare in *.
  all: destruct (Z.compare_spec e1 e2), (Z.compare_spec e2 e3),
         (Z.compare_spec e1 e3); try discriminate; try reflexivity; try lia.
  all: subst.
  all: destruct (Pos.compare_spec m1 m2), (Pos.compare_spec m2 m3),
         (Pos.compare_spec m1 m3); simpl in *; try discriminate;
         try reflexivity; try lia.
Qed.

Lemma doubles_flt_irrefl (a : float doubles) : flt doubles a a = false.
Proof.
  simpl. rewrite FloatAxioms.ltb_spec. apply SFltb_irrefl.
Qed.

Lemma doubles_flt_trans (a b c : float doubles) :
  flt doubles a b = true -> flt doubles b c = true -> flt doubles a c = true.
Proof.
  simpl. rewrite !FloatAxioms.ltb_spec. apply SFltb_trans.
Qed.

(** ** Equations of the handlers in direct style *)

Lemma get_closest_waypoint_eq (p : Point) (self : TLDetector) :
  get_closest_waypoint p self =
  match waypoints self with
  | Some wps =>
      match closest_loop p wps 0 (flit F 1000000) (flit F 1000000) None with
      | Some ind => (Ok (Some ind), self, [])
      | None => (Raise UnboundLocalError, self, [])
      end
  | None => (Ok None, self, [])
  end.
Proof.
  unfold get_closest_waypoint, bind, get, ret, raise.
  destruct (waypoints self) as [wps|]; [|reflexivity].
  destruct (closest_loop p wps 0 (flit F 1000000) (flit F 1000000) None);
    reflexivity.
Qed.

Lemma get_light_state_eq (self : TLDetector) :
  get_light_state self =
  match has_image self with
  | None => (Raise AttributeError, self, [])
  | Some false => (Ok 0, self, [])
  | Some true =>
      match camera_image self with
      | None => (Raise AttributeError, self, [])
      | Some img =>
          (get_classification img, self, [Classify img (processing_image self)])
      end
  end.
Proof.
  unfold get_light_state, bind, get, ret, raise, emit, lift.
  destruct (has_image self) as [[|]|]; try reflexivity.
  destruct (camera_image self) as [img|]; [|reflexivity].
  destruct (get_classification img); reflexivity.
Qed.

Lemma read_only_ret {A} (a : A) : read_only (ret a).
Proof. intros self. split; reflexivity. Qed.

Lemma read_only_raise {A} (e : exn) : read_only (@raise A e).
Proof. intros self. split; reflexivity. Qed.

Lemma read_only_get : read_only get.
Proof. intros self. split; reflexivity. Qed.

Lemma read_only_lift {A} (r : res A) : read_only (lift r).
Proof. intros self. split; reflexivity. Qed.

Lemma published_app (l1 l2 : list effect) :
  published (l1 ++ l2) = published l1 ++ published l2.
Proof.
  induction l1 as [|[d|img b] l1 IH]; simpl; [reflexivity| |assumption].
  now rewrite IH.
Qed.

Lemma classified_app (l1 l2 : list effect) :
  classified (l1 ++ l2) = classified l1 ++ classified l2.
Proof.
  induction l1 as [|[d|img b] l1 IH]; simpl; [reflexivity|assumption|].
  now rewrite IH.
Qed.

Lemma read_only_bind {A B} (m : M A) (k : A -> M B) :
  read_only m -> (forall a, read_only (k a)) -> read_only (bind m k).
Proof.
  intros Hm Hk self. unfold bind.
  destruct (Hm self) as [Hs Hp].
  destruct (m self) as [[[a|e] self1] l1]; simpl in *; subst self1.
  - destruct (Hk a self) as [Hs' Hp'].
    destruct (k a self) as [[r self2] l2]; simpl in *.
    split; [assumption|]. now rewrite published_app, Hp, Hp'.
  - split; [reflexivity|assumption].
Qed.

Lemma read_only_get_closest_waypoint (p : Point) :
  read_only (get_closest_waypoint p).
Proof.
  intros self. rewrite get_closest_waypoint_eq.
  destruct (waypoints self) as [wps|]; [|split; reflexivity].
  destruct (closest_loop p wps 0 (flit F 1000000) (flit F 1000000) None);
    split; reflexivity.
Qed.

Lemma read_only_get_light_state : read_only get_light_state.
Proof.
  intros self. rewrite get_light_state_eq.
  destruct (has_image self) as [[|]|]; try (split; reflexivity).
  destruct (camera_image self); split; reflexivity.
Qed.

Lemma read_only_light_found (light : TrafficLight) :
  read_only (light_found light).
Proof.
  unfold light_found.
  apply read_only_bind; [apply read_only_get_light_state|intros pred_state].
  apply read_only_bind; [apply read_only_get|intros self].
  apply read_only_bind; [apply read_only_lift|intros q].
  apply read_only_bind; [apply read_only_get_closest_waypoint|intros wp].
  apply read_only_ret.
Qed.

Lemma read_only_lights_loop (x y car_orient : float F)
    (ls : list TrafficLight) :
  read_only (lights_loop x y car_orient ls).
Proof.
  induction ls as [|light rest IH]; simpl; [apply read_only_ret|].
  apply read_only_bind; [apply read_only_get|intros self].
  apply read_only_bind; [apply read_only_lift|intros [|]]; [|exact IH].
  apply read_only_bind; [apply read_only_light_found|intros r].
  apply read_only_ret.
Qed.

Lemma read_only_process_traffic_lights : read_only process_traffic_lights.
Proof.
  unfold process_traffic_lights.
  apply read_only_bind; [apply read_only_get|intros self].
  destruct (waypoints self); [|apply read_only_ret].
  destruct (negb (site self)).
  - destruct (pose self) as [p|]; [|apply read_only_raise].
    apply read_only_bind; [apply read_only_lights_loop|intros [r|]];
      apply read_only_ret.
  - apply read_only_bind; [apply read_only_get_closest_waypoint|intros wp].
    apply read_only_bind; [apply read_only_get_light_state|intros st].
    apply read_only_ret.
Qed.
(** ** Equations of [debounce] and [image_cb] *)

Lemma debounce_eq (light_wp : option Z) (state_in : Z) (self : TLDetector) :
  debounce light_wp state_in self =
  match which_branch self state_in with
  | Branch1 => (Ok tt, set_state_count 1 (set_state state_in self), [])
  | Branch2 =>
      let v := if state_in =? RED then light_wp else Some (-1) in
      let self1 := set_last_wp v (set_last_state (state self) self) in
      match v with
      | Some data =>
          (Ok tt, set_state_count (state_count self + 1) self1, [Publish data])
      | None => (Raise SerializationError, self1, [])
      end
  | Branch3 =>
      match last_wp self with
      | Some data =>
          (Ok tt, set_state_count (state_count self + 1) self, [Publish data])
      | None => (Raise SerializationError, self, [])
      end
  end.
Proof.
  unfold debounce, debounce_branches, which_branch, bind, get, modify, publish,
    emit, raise, ret.
  destruct (state self =? state_in) eqn:E1; simpl; [|reflexivity].
  destruct (STATE_COUNT_THRESHOLD <=? state_count self) eqn:E2; simpl.
  - destruct (state self =? last_state self) eqn:E3; simpl.
    + apply Z.eqb_eq in E3.
      destruct (if state_in =? RED then light_wp else Some (-1)); simpl;
        unfold set_state_count, set_last_wp, set_last_state; simpl;
        rewrite <- E3; reflexivity.
    + destruct (if state_in =? RED then light_wp else Some (-1)); reflexivity.
  - destruct (last_wp self); reflexivity.
Qed.

Lemma debounce_branches_eq (light_wp : option Z) (state_in : Z)
    (self : TLDetector) :
  debounce_branches light_wp state_in self =
  match which_branch self state_in with
  | Branch1 => (Ok tt, set_state_count 0 (set_state state_in self), [])
  | Branch2 =>
      let v := if state_in =? RED then light_wp else Some (-1) in
      let self1 := set_last_wp v (set_last_state (state self) self) in
      match v with
      | Some data => (Ok tt, self1, [Publish data])
      | None => (Raise SerializationError, self1, [])
      end
  | Branch3 =>
      match last_wp self with
      | Some data => (Ok tt, self, [Publish data])
      | None => (Raise SerializationError, self, [])
      end
  end.
Proof.
  unfold debounce_branches, which_branch, bind, get, modify, publish,
    emit, raise, ret.
  destruct (state self =? state_in) eqn:E1; simpl; [|reflexivity].
  destruct (STATE_COUNT_THRESHOLD <=? state_count self) eqn:E2; simpl.
  - destruct (state self =? last_state self) eqn:E3; simpl.
    + apply Z.eqb_eq in E3.
      destruct (if state_in =? RED then light_wp else Some (-1)); simpl;
        unfold set_last_wp, set_last_state; simpl;
        rewrite <- E3; reflexivity.
    + destruct (if state_in =? RED then light_wp else Some (-1)); reflexivity.
  - destruct (last_wp self); reflexivity.
Qed.

Lemma image_cb_eq (now_time : float F) (msg : Image) (self : TLDetector) :
  image_cb now_time msg self =
  if accepts self now_time then
    match process_traffic_lights (frame_stored now_time msg self) with
    | (Ok None, self1, l1) => (Raise TypeError, self1, l1)
    | (Ok (Some (light_wp, state_in)), self1, l1) =>
        match debounce light_wp state_in self1 with
        | (r, self2, l2) => (r, self2, l1 ++ l2)
        end
    | (Raise e, self1, l1) => (Raise e, self1, l1)
    end
  else (Ok tt, self, []).
Proof.
  unfold image_cb. unfold bind at 1. unfold get at 1.
  destruct (accepts self now_time); [|reflexivity].
  unfold bind, modify, frame_stored; simpl.
  destruct (process_traffic_lights _) as [[[[[wp st]|]|e] self1] l1];
    simpl; try reflexivity.
  - destruct (debounce wp st self1) as [[r self2] l2]. reflexivity.
  - now rewrite app_nil_r.
Qed.

(** ** The published waypoint and the confirmed colour *)

Lemma debounce_red_or_sentinel (light_wp : option Z) (state_in : Z)
    (self : TLDetector) :
  red_or_sentinel self ->
  red_or_sentinel (snd (fst (debounce light_wp state_in self))) /\
  forall v, In v (published (snd (debounce light_wp state_in self))) ->
            last_state (snd (fst (debounce light_wp state_in self))) <> RED ->
            v = -1.
Proof.
  intros Hinv. rewrite debounce_eq. unfold which_branch.
  destruct (state self =? state_in) eqn:E1; simpl.
  - apply Z.eqb_eq in E1.
    destruct (STATE_COUNT_THRESHOLD <=? state_count self); simpl.
    + destruct (state_in =? RED) eqn:E2.
      * apply Z.eqb_eq in E2.
        destruct light_wp as [d|]; simpl; (split; [intros H|intros v _ H]);
          exfalso; apply H; unfold red_or_sentinel; simpl; congruence.
      * simpl. split; [intros _; reflexivity|].
        intros v [Hv|[]] _. now subst v.
    + destruct (last_wp self) as [d|] eqn:E3; simpl.
      * split; [exact Hinv|]. intros v [Hv|[]] H. subst v.
        specialize (Hinv H). congruence.
      * split; [exact Hinv|]. intros v [].
  - split; [exact Hinv|]. intros v [].
Qed.

Lemma dispatch_red_or_sentinel (m : Msg) (self : TLDetector) :
  red_or_sentinel self ->
  red_or_sentinel (snd (fst (dispatch m self))) /\
  forall v, In v (published (snd (dispatch m self))) ->
            last_state (snd (fst (dispatch m self))) <> RED -> v = -1.
Proof.
  intros Hinv. destruct m as [msg|wps|ls|now_time msg]; simpl.
  - split; [exact Hinv|intros v []].
  - unfold waypoints_cb, bind, get, modify, ret.
    destruct (got_waypoints self); simpl; (split; [exact Hinv|intros v []]).
  - split; [exact Hinv|intros v []].
  - rewrite image_cb_eq.
    destruct (accepts self now_time); [|split; [exact Hinv|intros v []]].
    destruct (read_only_process_traffic_lights (frame_stored now_time msg self))
      as [Hs Hp].
    destruct (process_traffic_lights (frame_stored now_time msg self))
      as [[[[[wp st]|]|e] self1] l1]; simpl in Hs, Hp; subst self1.
    + assert (H1 : red_or_sentinel (frame_stored now_time msg self))
        by exact Hinv.
      destruct (debounce_red_or_sentinel wp st _ H1) as [Ha Hb].
      destruct (debounce wp st (frame_stored now_time msg self))
        as [[r self2] l2]; simpl in *.
      split; [exact Ha|]. intros v Hv.
      rewrite published_app, Hp in Hv. exact (Hb v Hv).
    + simpl. split; [exact Hinv|]. rewrite Hp. intros v [].
    + simpl. split; [exact Hinv|]. rewrite Hp. intros v [].
Qed.

Lemma run_red_or_sentinel (msgs : list Msg) (self : TLDetector) :
  red_or_sentinel self -> red_or_sentinel (fst (run self msgs)).
Proof.
  revert self. induction msgs as [|m rest IH]; intros self Hinv; simpl.
  - exact Hinv.
  - destruct (dispatch_red_or_sentinel m self Hinv) as [H1 _].
    destruct (dispatch m self) as [[r self1] l1]; simpl in H1.
    specialize (IH self1 H1).
    destruct (run self1 rest) as [self2 l2]. exact IH.
Qed.

(** C4.  In every reachable state of the node, whatever message comes next,
    a value it publishes on /traffic_waypoint is the sentinel [-1] unless
    the confirmed colour [last_state] is then [RED]; so a non-negative value
    is published only while the confirmed colour is [RED]. *)
Theorem published_nonneg_only_when_red :
  forall (self : TLDetector) (m : Msg) (v : Z),
    reachable self ->
    In v (published (snd (dispatch m self))) ->
    (last_state (snd (fst (dispatch m self))) <> RED -> v = -1) /\
    (0 <= v -> last_state (snd (fst (dispatch m self))) = RED).
Proof.
  intros self m v (now & cfg & msgs & Hr) Hv.
  assert (Hinv : red_or_sentinel self).
  { subst self. apply run_red_or_sentinel. intros _. reflexivity. }
  destruct (dispatch_red_or_sentinel m self Hinv) as [_ Hp].
  split; [exact (Hp v Hv)|].
  intros Hnn.
  destruct (Z.eq_dec (last_state (snd (fst (dispatch m self)))) RED)
    as [Heq|Hne]; [exact Heq|].
  specialize (Hp v Hv Hne). lia.
Qed.

(** ** Before the first confirmation *)

Lemma dispatch_sentinel (m : Msg) (self : TLDetector) :
  last_wp self = Some (-1) ->
  fired m self <> Some Branch2 ->
  last_wp (snd (fst (dispatch m self))) = Some (-1) /\
  Forall (fun v => v = -1) (published (snd (dispatch m self))).
Proof.
  intros Hwp Hb. destruct m as [msg|wps|ls|now_time msg]; simpl in *.
  - split; [exact Hwp|constructor].
  - unfold waypoints_cb, bind, get, modify, ret.
    destruct (got_waypoints self); simpl; (split; [exact Hwp|constructor]).
  - split; [exact Hwp|constructor].
  - rewrite image_cb_eq. unfold image_branch in Hb.
    destruct (accepts self now_time); [|split; [exact Hwp|constructor]].
    destruct (read_only_process_traffic_lights (frame_stored now_time msg self))
      as [Hs Hp].
    destruct (process_traffic_lights (frame_stored now_time msg self))
      as [[[[[wp st]|]|e] self1] l1]; simpl in Hs, Hp; subst self1.
    + rewrite debounce_eq.
      destruct (which_branch (frame_stored now_time msg self) st) eqn:E;
        [|congruence|]; simpl.
      * split; [exact Hwp|]. rewrite app_nil_r, Hp. constructor.
      * rewrite Hwp. simpl. split; [exact Hwp|].
        rewrite published_app, Hp. simpl. repeat constructor.
    + simpl. split; [exact Hwp|]. rewrite Hp. constructor.
    + simpl. split; [exact Hwp|]. rewrite Hp. constructor.
Qed.

(** C10.  From [__init__] on, as long as no image message has taken branch 2
    of the debounce logic, every value published on /traffic_waypoint is the
    initial sentinel [-1]. *)
Theorem sentinel_until_first_confirmation :
  forall (now : float F) (cfg : Config) (msgs : list Msg),
    ~ In (Some Branch2) (run_branches (init now cfg) msgs) ->
    Forall (fun v => v = -1) (published (snd (run (init now cfg) msgs))).
Proof.
  intros now cfg msgs.
  assert (Hinit : last_wp (init now cfg) = Some (-1)) by reflexivity.
  revert Hinit. generalize (init now cfg) as self.
  induction msgs as [|m rest IH]; intros self Hwp Hnb; simpl.
  - constructor.
  - simpl in Hnb.
    assert (Hm : fired m self <> Some Branch2) by (intros E; apply Hnb; now left).
    destruct (dispatch_sentinel m self Hwp Hm) as [H1 H2].
    assert (Hrest : ~ In (Some Branch2)
                        (run_branches (snd (fst (dispatch m self))) rest))
      by (intros E; apply Hnb; now right).
    specialize (IH _ H1 Hrest).
    destruct (dispatch m self) as [[r self1] l1]; simpl in *.
    destruct (run self1 rest) as [self2 l2]; simpl in *.
    rewrite published_app. apply Forall_app. split; assumption.
Qed.

(** ** The debounce logic on sequences of raw readings *)

Lemma which_branch_1 (self : TLDetector) (state_in : Z) :
  state self <> state_in -> which_branch self state_in = Branch1.
Proof.
  intros H. unfold which_branch.
  apply Z.eqb_neq in H. now rewrite H.
Qed.

Lemma which_branch_2 (self : TLDetector) (state_in : Z) :
  state self = state_in -> 3 <= state_count self ->
  which_branch self state_in = Branch2.
Proof.
  intros H1 H2. unfold which_branch, STATE_COUNT_THRESHOLD.
  apply Z.eqb_eq in H1. apply Z.leb_le in H2. now rewrite H1, H2.
Qed.

Lemma which_branch_3 (self : TLDetector) (state_in : Z) :
  state self = state_in -> state_count self < 3 ->
  which_branch self state_in = Branch3.
Proof.
  intros H1 H2. unfold which_branch, STATE_COUNT_THRESHOLD.
  apply Z.eqb_eq in H1. apply Z.leb_gt in H2. now rewrite H1, H2.
Qed.

Lemma which_branch_2_inv (self : TLDetector) (state_in : Z) :
  which_branch self state_in = Branch2 ->
  state self = state_in /\ 3 <= state_count self.
Proof.
  unfold which_branch, STATE_COUNT_THRESHOLD.
  destruct (state self =? state_in) eqn:E1; [|discriminate].
  destruct (3 <=? state_count self) eqn:E2; [|discriminate].
  intros _. split; [now apply Z.eqb_eq|now apply Z.leb_le].
Qed.

Lemma feed_app (frames1 frames2 : list (Z * Z)) (self : TLDetector) :
  feed self (frames1 ++ frames2) =
  (fst (feed (fst (feed self frames1)) frames2),
   snd (feed self frames1) ++ snd (feed (fst (feed self frames1)) frames2)).
Proof.
  revert self. induction frames1 as [|[wp st] rest IH]; intros self; simpl.
  - now destruct (feed self frames2).
  - destruct (debounce (Some wp) st self) as [[r self1] l1].
    rewrite IH. destruct (feed self1 rest) as [self2 outs]. reflexivity.
Qed.

Lemma last_three {A} (l : list A) :
  (3 <= length l)%nat -> exists l0 a b c, l = l0 ++ [a; b; c].
Proof.
  intros H.
  rewrite <- (firstn_skipn (length l - 3) l).
  assert (Hlen : length (skipn (length l - 3) l) = 3%nat)
    by (rewrite length_skipn; lia).
  destruct (skipn (length l - 3) l) as [|a [|b [|c [|d t]]]]; try discriminate.
  now exists (firstn (length l - 3) l), a, b, c.
Qed.

(** What holds after feeding [frames] to a fresh node: the stored waypoint is
    the value published last (the sentinel if none was), and the counter
    counts readings that all carry the current raw state. *)
Lemma feed_invariant (now : float F) (cfg : Config) (frames : list (Z * Z)) :
  last_wp (fst (feed (init now cfg) frames)) =
    Some (last (concat (snd (feed (init now cfg) frames))) (-1)) /\
  exists older recent,
    frames = older ++ recent /\
    Z.of_nat (length recent) = state_count (fst (feed (init now cfg) frames)) /\
    Forall (fun f => snd f = state (fst (feed (init now cfg) frames))) recent.
Proof.
  induction frames as [|[wp st] frames IH] using rev_ind.
  - simpl. split; [reflexivity|]. exists [], []. repeat split. constructor.
  - destruct IH as [Hwp (older & recent & Hfr & Hlen & Hall)].
    rewrite feed_app. simpl fst; simpl snd.
    set (s := fst (feed (init now cfg) frames)) in *.
    set (outs := snd (feed (init now cfg) frames)) in *.
    simpl feed. rewrite debounce_eq.
    destruct (which_branch s st) eqn:E.
    + simpl. split.
      * rewrite concat_app. simpl. now rewrite app_nil_r.
      * exists frames, [(wp, st)]. repeat split. repeat constructor.
    + apply which_branch_2_inv in E. destruct E as [E1 E2].
      assert (Hv : exists d, (if st =? RED then Some wp else Some (-1)) = Some d)
        by (destruct (st =? RED); eauto).
      destruct Hv as [d Hd]. rewrite Hd. simpl. split.
      * rewrite concat_app. simpl. now rewrite last_last.
      * exists older, (recent ++ [(wp, st)]). split; [|split].
        -- rewrite Hfr. now rewrite app_assoc.
        -- rewrite length_app. simpl. lia.
        -- apply Forall_app. split; [exact Hall|].
           constructor; [simpl; congruence|constructor].
    + unfold which_branch in E.
      destruct (state s =? st) eqn:E1; [|discriminate].
      apply Z.eqb_eq in E1.
      rewrite Hwp. simpl. split.
      * rewrite concat_app. simpl. rewrite last_last. exact Hwp.
      * exists older, (recent ++ [(wp, st)]). split; [|split].
        -- rewrite Hfr. now rewrite app_assoc.
        -- rewrite length_app. simpl. lia.
        -- apply Forall_app. split; [exact Hall|].
           constructor; [simpl; congruence|constructor].
Qed.

Lemma feed_step_1 (self : TLDetector) (wp st : Z) (rest : list (Z * Z)) :
  state self <> st ->
  feed self ((wp, st) :: rest) =
  (fst (feed (set_state_count 1 (set_state st self)) rest),
   [] :: snd (feed (set_state_count 1 (set_state st self)) rest)).
Proof.
  intros H. simpl. rewrite debounce_eq, which_branch_1 by exact H.
  now destruct (feed _ rest).
Qed.

Lemma feed_step_2 (self : TLDetector) (wp st : Z) (rest : list (Z * Z)) :
  state self = st -> 3 <= state_count self ->
  let v := if st =? RED then wp else -1 in
  let self1 := set_state_count (state_count self + 1)
                 (set_last_wp (Some v) (set_last_state (state self) self)) in
  feed self ((wp, st) :: rest) =
  (fst (feed self1 rest), [v] :: snd (feed self1 rest)).
Proof.
  intros H1 H2. simpl. rewrite debounce_eq, which_branch_2 by assumption.
  destruct (st =? RED); simpl; now destruct (feed _ rest).
Qed.

Lemma feed_step_3 (self : TLDetector) (wp st d : Z) (rest : list (Z * Z)) :
  state self = st -> state_count self < 3 -> last_wp self = Some d ->
  feed self ((wp, st) :: rest) =
  (fst (feed (set_state_count (state_count self + 1) self) rest),
   [d] :: snd (feed (set_state_count (state_count self + 1) self) rest)).
Proof.
  intros H1 H2 H3. simpl. rewrite debounce_eq, which_branch_3 by assumption.
  rewrite H3. now destruct (feed _ rest).
Qed.

Lemma feed_stable (wp st : Z) (k : nat) (self : TLDetector) :
  state self = st -> 3 <= state_count self ->
  snd (feed self (repeat (wp, st) k)) =
    repeat [if st =? RED then wp else -1] k /\
  feed_branches self (repeat (wp, st) k) = repeat Branch2 k.
Proof.
  revert self. induction k as [|k IH]; intros self H1 H2; simpl repeat.
  - split; reflexivity.
  - rewrite feed_step_2 by assumption. simpl snd.
    simpl feed_branches. rewrite which_branch_2 by assumption.
    rewrite debounce_eq, which_branch_2 by assumption.
    assert (Hv : (if st =? RED then Some wp else Some (-1)) =
                 Some (if st =? RED then wp else -1))
      by (destruct (st =? RED); reflexivity).
    cbv zeta. rewrite Hv. cbn [fst snd].
    destruct (IH (set_state_count (state_count self + 1)
                    (set_last_wp (Some (if st =? RED then wp else -1))
                       (set_last_state (state self) self))))
      as [IH1 IH2]; [exact H1|simpl; lia|].
    rewrite IH1, IH2. split; reflexivity.
Qed.

(** C3.  A fresh node fed the raw readings RED four or more times, always
    with waypoint 42: the first reading takes branch 1 and publishes nothing,
    the second and third take branch 3 and republish the stored value (the
    initial [-1]), the fourth and every later one takes branch 2 and
    publishes 42.  And on every reading fed to a fresh node the handler
    returns normally with [state_count] one more than the branches left it. *)
Theorem four_reds_publish_42 :
  RED <> UNKNOWN ->
  forall (now : float F) (cfg : Config),
    (forall n : nat,
       feed_branches (init now cfg) (repeat (42, RED) (4 + n)) =
         [Branch1; Branch3; Branch3] ++ repeat Branch2 (1 + n) /\
       snd (feed (init now cfg) (repeat (42, RED) (4 + n))) =
         [[]; [-1]; [-1]] ++ repeat [42] (1 + n)) /\
    (forall (frames : list (Z * Z)) (wp st : Z),
       let self := fst (feed (init now cfg) frames) in
       fst (fst (debounce (Some wp) st self)) = Ok tt /\
       state_count (snd (fst (debounce (Some wp) st self))) =
         state_count (snd (fst (debounce_branches (Some wp) st self))) + 1).
Proof.
  intros Hne now cfg. split.
  - intros n.
    assert (H0 : state (init now cfg) <> RED) by (simpl; congruence).
    set (s1 := set_state_count 1 (set_state RED (init now cfg))).
    set (s2 := set_state_count (state_count s1 + 1) s1).
    set (s3 := set_state_count (state_count s2 + 1) s2).
    destruct (feed_stable 42 RED (1 + n) s3) as [Hout Hbr];
      [reflexivity|simpl; lia|].
    rewrite Z.eqb_refl in Hout.
    change (repeat (42, RED) (4 + n))
      with ((42, RED) :: (42, RED) :: (42, RED) :: repeat (42, RED) (1 + n)).
    split.
    + cbn [feed_branches].
      rewrite (which_branch_1 _ _ H0).
      rewrite debounce_eq, (which_branch_1 _ _ H0). cbn [fst snd].
      fold s1.
      rewrite (which_branch_3 s1 RED) by (reflexivity || (simpl; lia)).
      rewrite debounce_eq, (which_branch_3 s1 RED)
        by (reflexivity || (simpl; lia)).
      change (last_wp s1) with (Some (-1)). cbn [fst snd]. fold s2.
      rewrite (which_branch_3 s2 RED) by (reflexivity || (simpl; lia)).
      rewrite debounce_eq, (which_branch_3 s2 RED)
        by (reflexivity || (simpl; lia)).
      change (last_wp s2) with (Some (-1)). cbn [fst snd]. fold s3.
      now rewrite Hbr.
    + rewrite (feed_step_1 _ _ _ _ H0). fold s1. cbn [snd].
      rewrite (feed_step_3 s1 42 RED (-1))
        by (reflexivity || (simpl; lia)).
      fold s2. cbn [snd].
      rewrite (feed_step_3 s2 42 RED (-1))
        by (reflexivity || (simpl; lia)).
      fold s3. cbn [snd]. now rewrite Hout.
  - intros frames wp st self.
    destruct (feed_invariant now cfg frames) as [Hwp _]. fold self in Hwp.
    rewrite debounce_eq, debounce_branches_eq.
    destruct (which_branch self st); simpl.
    + split; reflexivity.
    + destruct (st =? RED); simpl; split; reflexivity.
    + rewrite Hwp. simpl. split; reflexivity.
Qed.

(** C2.  Fed any raw readings from a fresh start, the debounce logic
    publishes a value other than the one published last (initially the
    sentinel) only on a reading whose three predecessors carried the same
    raw state.  On the readings RED, GREEN, RED, RED, RED, RED with waypoint
    42, the GREEN reading sets [state_count] back to 0 in its branch, the
    three RED readings after it publish nothing, [-1] and [-1], and only the
    sixth reading publishes 42. *)
Theorem no_change_before_stable :
  forall (now : float F) (cfg : Config) (GREEN : Z),
    GREEN <> RED ->
    (forall (frames : list (Z * Z)) (wp st v : Z),
       published
         (snd (debounce (Some wp) st (fst (feed (init now cfg) frames)))) = [v] ->
       v <> last (concat (snd (feed (init now cfg) frames))) (-1) ->
       exists older w1 w2 w3,
         frames = older ++ [(w1, st); (w2, st); (w3, st)]) /\
    state_count
      (snd (fst (debounce_branches (Some 42) GREEN
                   (fst (feed (init now cfg) [(42, RED)]))))) = 0 /\
    exists first,
      ~ In 42 first /\
      snd (feed (init now cfg)
             [(42, RED); (42, GREEN); (42, RED); (42, RED); (42, RED); (42, RED)]) =
        [first; []; []; [-1]; [-1]; [42]].
Proof.
  intros now cfg GREEN Hg. split; [|split].
  - intros frames wp st v Hpub Hlast.
    destruct (feed_invariant now cfg frames)
      as [Hwp (older & recent & Hfr & Hlen & Hall)].
    set (s := fst (feed (init now cfg) frames)) in *.
    rewrite debounce_eq in Hpub.
    destruct (which_branch s st) eqn:E.
    + discriminate Hpub.
    + apply which_branch_2_inv in E. destruct E as [E1 E2].
      destruct (last_three recent) as (l0 & a & b & c & Hrec); [lia|].
      subst recent.
      apply Forall_app in Hall. destruct Hall as [_ Hall].
      inversion Hall as [|? ? Ha Hall1]; subst.
      inversion Hall1 as [|? ? Hb Hall2]; subst.
      inversion Hall2 as [|? ? Hc _]; subst.
      destruct a as [w1 c1], b as [w2 c2], c as [w3 c3]. simpl in *.
      exists (older ++ l0), w1, w2, w3.
      rewrite <- app_assoc. congruence.
    + rewrite Hwp in Hpub. simpl in Hpub. congruence.
  - assert (Hs : state (fst (feed (init now cfg) [(42, RED)])) = RED).
    { simpl. rewrite debounce_eq. unfold which_branch. simpl.
      destruct (UNKNOWN =? RED) eqn:E; simpl; [|reflexivity].
      now apply Z.eqb_eq in E. }
    rewrite debounce_branches_eq, which_branch_1 by congruence.
    reflexivity.
  - set (tail := [(42, GREEN); (42, RED); (42, RED); (42, RED); (42, RED)]).
    assert (Htail : forall self, state self = RED ->
              last_wp self = Some (-1) ->
              snd (feed self tail) = [[]; []; [-1]; [-1]; [42]]).
    { intros self Hst Hwp. unfold tail.
      rewrite feed_step_1 by congruence. cbn [snd].
      rewrite feed_step_1 by (simpl; congruence). cbn [snd].
      rewrite (feed_step_3 _ 42 RED (-1))
        by (reflexivity || (simpl; lia) || exact Hwp).
      cbn [snd].
      rewrite (feed_step_3 _ 42 RED (-1))
        by (reflexivity || (simpl; lia) || exact Hwp).
      cbn [snd].
      rewrite feed_step_2 by (reflexivity || (simpl; lia)).
      cbv zeta. cbn [snd feed]. now rewrite Z.eqb_refl. }
    change [(42, RED); (42, GREEN); (42, RED); (42, RED); (42, RED); (42, RED)]
      with ((42, RED) :: tail).
    destruct (Z.eq_dec UNKNOWN RED) as [Heq|Hne].
    + exists [-1]. split; [intros [H|[]]; discriminate|].
      rewrite (feed_step_3 _ 42 RED (-1))
        by (assumption || reflexivity || (simpl; lia)).
      cbn [snd]. now rewrite Htail.
    + exists []. split; [intros []|].
      rewrite feed_step_1 by exact Hne.
      cbn [snd]. now rewrite Htail.
Qed.


(** ** The waypoint [get_closest_waypoint] returns *)

Lemma closest_loop_bound (p : Point) (wps : list Waypoint) (point : Z)
    (diff_x diff_y : float F) (ind : option Z) (i : Z) :
  closest_loop p wps point diff_x diff_y ind = Some i ->
  ind = Some i \/ (point <= i < point + Z.of_nat (length wps)).
Proof.
  revert point diff_x diff_y ind.
  induction wps as [|w rest IH]; intros point diff_x diff_y ind; simpl.
  - intros H. now left.
  - destruct (flt F _ diff_x && flt F _ diff_y); intros H;
      apply IH in H; destruct H as [H|H].
    + inversion H; subst. right. lia.
    + right. lia.
    + now left.
    + right. lia.
Qed.

Lemma get_closest_waypoint_in_range (p : Point) (self : TLDetector)
    (wps : list Waypoint) (i : Z) (self1 : TLDetector) (l : list effect) :
  waypoints self = Some wps ->
  get_closest_waypoint p self = (Ok (Some i), self1, l) ->
  0 <= i < Z.of_nat (length wps).
Proof.
  intros Hwps. rewrite get_closest_waypoint_eq, Hwps.
  destruct (closest_loop p wps 0 (flit F 1000000) (flit F 1000000) None)
    as [ind|] eqn:E; [|discriminate].
  intros H. inversion H; subst.
  apply closest_loop_bound in E. destruct E as [E|E]; [discriminate|lia].
Qed.

Lemma closest_loop_bound_ind (p : Point) (wps : list Waypoint) (point : Z)
    (dx dy : float F) (k : Z) :
  closest_loop p wps point dx dy (Some k) <> None.
Proof.
  revert point dx dy k.
  induction wps as [|w0 rest IH]; intros point dx dy k; simpl.
  - discriminate.
  - destruct (flt F _ dx && flt F _ dy); apply IH.
Qed.

Lemma closest_loop_unbound (p : Point) (wps : list Waypoint) (point : Z)
    (dx dy : float F) :
  closest_loop p wps point dx dy None = None ->
  forall w, In w wps ->
            flt F (x_gap p w) dx && flt F (y_gap p w) dy = false.
Proof.
  revert point.
  induction wps as [|w0 rest IH]; intros point H w Hin;
    cbn [closest_loop] in H; cbv zeta in H.
  - destruct Hin.
  - fold (x_gap p w0) in H. fold (y_gap p w0) in H.
    destruct (flt F (x_gap p w0) dx && flt F (y_gap p w0) dy) eqn:E.
    + exfalso. exact (closest_loop_bound_ind _ _ _ _ _ _ H).
    + destruct Hin as [Hw|Hw]; [subst w; exact E|exact (IH _ H w Hw)].
Qed.

Lemma closest_loop_start_kept (p : Point) (wps : list Waypoint) (point : Z)
    (dx dy : float F) (ind : option Z) :
  (forall w, In w wps ->
             flt F (x_gap p w) dx && flt F (y_gap p w) dy = false) ->
  closest_loop p wps point dx dy ind = ind.
Proof.
  revert point.
  induction wps as [|w0 rest IH]; intros point H;
    cbn [closest_loop]; cbv zeta; [reflexivity|].
  fold (x_gap p w0). fold (y_gap p w0).
  rewrite (H w0 (or_introl eq_refl)).
  apply IH. intros w Hw. apply H. now right.
Qed.

Lemma closest_loop_found (p : Point) (wps : list Waypoint) :
  existsb (within_start p) wps = true ->
  exists i,
    closest_loop p wps 0 (flit F 1000000) (flit F 1000000) None = Some i /\
    0 <= i < Z.of_nat (length wps).
Proof.
  intros Hex.
  destruct (closest_loop p wps 0 (flit F 1000000) (flit F 1000000) None)
    as [i|] eqn:E.
  - exists i. split; [reflexivity|].
    apply closest_loop_bound in E. destruct E as [E|E]; [discriminate|lia].
  - exfalso. apply existsb_exists in Hex.
    destruct Hex as (w & Hin & Hw). unfold within_start in Hw.
    rewrite (closest_loop_unbound _ _ _ _ _ E w Hin) in Hw. discriminate.
Qed.

Lemma closest_loop_not_found (p : Point) (wps : list Waypoint) :
  existsb (within_start p) wps = false ->
  closest_loop p wps 0 (flit F 1000000) (flit F 1000000) None = None.
Proof.
  intros Hex. apply closest_loop_start_kept.
  intros w Hin.
  destruct (flt F (x_gap p w) (flit F 1000000)
            && flt F (y_gap p w) (flit F 1000000)) eqn:E; [|reflexivity].
  assert (Ht : existsb (within_start p) wps = true)
    by (apply existsb_exists; now exists w).
  congruence.
Qed.

Lemma get_closest_waypoint_cases (p : Point) (self : TLDetector)
    (wps : list Waypoint) :
  waypoints self = Some wps ->
  (existsb (within_start p) wps = true ->
   exists i, get_closest_waypoint p self = (Ok (Some i), self, [])) /\
  (existsb (within_start p) wps = false ->
   get_closest_waypoint p self = (Raise UnboundLocalError, self, [])).
Proof.
  intros Hwps. rewrite get_closest_waypoint_eq, Hwps. split; intros Hex.
  - destruct (closest_loop_found p wps Hex) as (i & -> & _). now exists i.
  - now rewrite (closest_loop_not_found p wps Hex).
Qed.

(** X5.  With a path stored, [get_closest_waypoint] returns an index exactly
    when some waypoint passes the test of line 147 against the starting
    values, that is when its computed gaps [abs(px - wx)] and [abs(py - wy)]
    both compare below [1e6]; the index is then within the path.  When no
    waypoint does (the empty path included) it raises UnboundLocalError.
    Either way it leaves the node as it was. *)
Theorem get_closest_waypoint_result :
  forall (p : Point) (self : TLDetector) (wps : list Waypoint),
    waypoints self = Some wps ->
    (existsb (within_start p) wps = true ->
     exists i,
       get_closest_waypoint p self = (Ok (Some i), self, []) /\
       0 <= i < Z.of_nat (length wps)) /\
    (existsb (within_start p) wps = false ->
     get_closest_waypoint p self = (Raise UnboundLocalError, self, [])).
Proof.
  intros p self wps Hwps. rewrite get_closest_waypoint_eq, Hwps.
  split; intros Hex.
  - destruct (closest_loop_found p wps Hex) as (i & Hi & Hr).
    exists i. rewrite Hi. split; [reflexivity|exact Hr].
  - now rewrite (closest_loop_not_found p wps Hex).
Qed.

Section OrderedGaps.

(** Two laws of [<] on floats: nothing is below itself, and the order is
    transitive. *)
Hypothesis flt_irrefl : forall a, flt F a a = false.
Hypothesis flt_trans :
  forall a b c, flt F a b = true -> flt F b c = true -> flt F a c = true.

Lemma closest_loop_spec (p : Point) (wps : list Waypoint) (point : Z)
    (dx dy : float F) (ind : option Z) (i : Z) :
  closest_loop p wps point dx dy ind = Some i ->
  (ind = Some i /\
   forall w, In w wps ->
             flt F (x_gap p w) dx && flt F (y_gap p w) dy = false) \/
  (exists w,
     nth_error wps (Z.to_nat (i - point)) = Some w /\
     point <= i /\
     flt F (x_gap p w) dx = true /\ flt F (y_gap p w) dy = true /\
     forall w', In w' wps ->
                flt F (x_gap p w') (x_gap p w)
                && flt F (y_gap p w') (y_gap p w) = false).
Proof.
  revert point dx dy ind.
  induction wps as [|w0 rest IH]; intros point dx dy ind H;
    cbn [closest_loop] in H; cbv zeta in H.
  - left. split; [exact H|]. intros w [].
  - fold (x_gap p w0) in H. fold (y_gap p w0) in H.
    destruct (flt F (x_gap p w0) dx && flt F (y_gap p w0) dy) eqn:E.
    + apply andb_true_iff in E. destruct E as [Hx Hy].
      apply IH in H.
      destruct H as [[Hi Hno]|(w & Hn & Hle & Hwx & Hwy & Hund)]; right.
      * inversion Hi; subst i. exists w0.
        rewrite Z.sub_diag. simpl.
        split; [reflexivity|]. split; [lia|]. split; [exact Hx|].
        split; [exact Hy|].
        intros w' [Hw'|Hw'].
        -- subst w'. now rewrite flt_irrefl.
        -- exact (Hno w' Hw').
      * exists w.
        replace (Z.to_nat (i - point)) with (S (Z.to_nat (i - (point + 1))))
          by lia.
        simpl. split; [exact Hn|]. split; [lia|].
        split; [exact (flt_trans _ _ _ Hwx Hx)|].
        split; [exact (flt_trans _ _ _ Hwy Hy)|].
        intros w' [Hw'|Hw'].
        -- subst w'.
           destruct (flt F (x_gap p w0) (x_gap p w)) eqn:E1; [|reflexivity].
           exfalso. pose proof (flt_trans _ _ _ E1 Hwx) as Hc.
           rewrite flt_irrefl in Hc. discriminate.
        -- exact (Hund w' Hw').
    + apply IH in H.
      destruct H as [[Hi Hno]|(w & Hn & Hle & Hwx & Hwy & Hund)].
      * left. split; [exact Hi|].
        intros w [Hw|Hw]; [subst w; exact E|exact (Hno w Hw)].
      * right. exists w.
        replace (Z.to_nat (i - point)) with (S (Z.to_nat (i - (point + 1))))
          by lia.
        simpl. split; [exact Hn|]. split; [lia|].
        split; [exact Hwx|]. split; [exact Hwy|].
        intros w' [Hw'|Hw'].
        -- subst w'.
           destruct (flt F (x_gap p w0) (x_gap p w)
                     && flt F (y_gap p w0) (y_gap p w)) eqn:E1;
             [|reflexivity].
           apply andb_true_iff in E1. destruct E1 as [Ha Hb].
           rewrite (flt_trans _ _ _ Ha Hwx), (flt_trans _ _ _ Hb Hwy) in E.
           discriminate.
        -- exact (Hund w' Hw').
Qed.

(** X6.  Where [<] on floats is irreflexive and transitive, as it is on
    doubles, the waypoint whose index [get_closest_waypoint] returns has
    computed gaps below [1e6] on both axes and is not beaten on both axes at
    once: no waypoint of the path has a computed x gap below its x gap and a
    computed y gap below its y gap. *)
Theorem closest_waypoint_not_dominated :
  forall (p : Point) (self self1 : TLDetector) (wps : list Waypoint)
         (i : Z) (l : list effect),
    waypoints self = Some wps ->
    get_closest_waypoint p self = (Ok (Some i), self1, l) ->
    exists w,
      nth_error wps (Z.to_nat i) = Some w /\
      within_start p w = true /\
      forall w', In w' wps ->
                 flt F (x_gap p w') (x_gap p w)
                 && flt F (y_gap p w') (y_gap p w) = false.
Proof.
  intros p self self1 wps i l Hwps. rewrite get_closest_waypoint_eq, Hwps.
  destruct (closest_loop p wps 0 (flit F 1000000) (flit F 1000000) None)
    as [k|] eqn:E; [|discriminate].
  intros H. inversion H; subst k.
  apply closest_loop_spec in E.
  destruct E as [[Hi _]|(w & Hn & _ & Hx & Hy & Hund)]; [discriminate|].
  rewrite Z.sub_0_r in Hn. exists w. split; [exact Hn|].
  split; [|exact Hund]. unfold within_start. now rewrite Hx, Hy.
Qed.

End OrderedGaps.

(** ** Classifier calls *)

Lemma bind_get {A} (k : TLDetector -> M A) (self : TLDetector) :
  bind get k self = k self self.
Proof.
  unfold bind, get. now destruct (k self self) as [[r s] l].
Qed.

Lemma debounce_quiet (light_wp : option Z) (state_in : Z) (self : TLDetector) :
  classified (snd (debounce light_wp state_in self)) = [] /\
  processing_image (snd (fst (debounce light_wp state_in self))) =
    processing_image self.
Proof.
  rewrite debounce_eq.
  destruct (which_branch self state_in); simpl.
  - split; reflexivity.
  - destruct (if state_in =? RED then light_wp else Some (-1));
      split; reflexivity.
  - destruct (last_wp self); split; reflexivity.
Qed.

Lemma accepts_iff (self : TLDetector) (now_time : float F) :
  accepts self now_time = true <->
  processing_image self = false /\
  flt F (fadd F (last_image_time self) (flit F (1 # 10))) now_time = true.
Proof.
  unfold accepts. now rewrite andb_true_iff, negb_true_iff.
Qed.

(** ** The stop line chosen for a light *)

Lemma stop_line_loop_candidate (light_x light_y : float F)
    (stop_lines : list (float F * float F)) (minimum : float F)
    (light_stop_pose q : Point) :
  stop_line_loop light_x light_y stop_lines minimum light_stop_pose = Ok q ->
  q = light_stop_pose \/
  exists s, In s stop_lines /\ q = mkPoint (fst s) (snd s).
Proof.
  revert minimum light_stop_pose.
  induction stop_lines as [|s0 rest IH]; intros minimum light_stop_pose;
    cbn [stop_line_loop].
  - intros H. inversion H. now left.
  - destruct (distance light_x light_y (fst s0) (snd s0)) as [d|e];
      [|discriminate].
    destruct (flt F d minimum); intros H; apply IH in H;
      destruct H as [H|(s & Hin & H)].
    + right. exists s0. split; [now left|exact H].
    + right. exists s. split; [now right|exact H].
    + now left.
    + right. exists s. split; [now right|exact H].
Qed.

Lemma stop_pose_candidate (light : TrafficLight) (self : TLDetector)
    (q : Point) :
  stop_pose_of light self = Ok q -> stop_candidate self q.
Proof.
  unfold stop_pose_of, stop_candidate. intros H.
  apply stop_line_loop_candidate in H. exact H.
Qed.

(** The loop raises only if a distance does. *)
Lemma stop_line_loop_returns (light_x light_y : float F)
    (stop_lines : list (float F * float F)) (minimum : float F)
    (light_stop_pose : Point) :
  (forall s, In s stop_lines ->
             exists d, distance light_x light_y (fst s) (snd s) = Ok d) ->
  exists q,
    stop_line_loop light_x light_y stop_lines minimum light_stop_pose = Ok q.
Proof.
  revert minimum light_stop_pose.
  induction stop_lines as [|s0 rest IH]; intros minimum light_stop_pose H;
    cbn [stop_line_loop].
  - now exists light_stop_pose.
  - destruct (H s0 (or_introl eq_refl)) as (d & Hd). rewrite Hd.
    destruct (flt F d minimum); apply IH; intros s Hs; apply H; now right.
Qed.

Section OrderedDistances.

Hypothesis flt_irrefl : forall a, flt F a a = false.
Hypothesis flt_trans :
  forall a b c, flt F a b = true -> flt F b c = true -> flt F a c = true.

Lemma stop_line_loop_spec (light_x light_y : float F)
    (stop_lines : list (float F * float F)) (minimum : float F)
    (light_stop_pose q : Point) :
  stop_line_loop light_x light_y stop_lines minimum light_stop_pose = Ok q ->
  (q = light_stop_pose /\
   forall s d, In s stop_lines ->
               distance light_x light_y (fst s) (snd s) = Ok d ->
               flt F d minimum = false) \/
  (exists s d,
     In s stop_lines /\ q = mkPoint (fst s) (snd s) /\
     distance light_x light_y (fst s) (snd s) = Ok d /\
     flt F d minimum = true /\
     forall s' d', In s' stop_lines ->
                   distance light_x light_y (fst s') (snd s') = Ok d' ->
                   flt F d' d = false).
Proof.
  revert minimum light_stop_pose.
  induction stop_lines as [|s0 rest IH]; intros minimum light_stop_pose;
    cbn [stop_line_loop].
  - intros H. inversion H. left. split; [reflexivity|intros s d []].
  - destruct (distance light_x light_y (fst s0) (snd s0)) as [d0|e] eqn:D0;
      [|discriminate].
    destruct (flt F d0 minimum) eqn:E; intros H; apply IH in H.
    + right.
      destruct H as [[Hq Hall]|(s & d & Hin & Hq & Hd & Hlt & Hmin)].
      * exists s0, d0. split; [now left|]. split; [exact Hq|].
        split; [exact D0|]. split; [exact E|].
        intros s' d' [Hs'|Hs'] Hd'.
        -- subst s'. rewrite D0 in Hd'. inversion Hd'; subst. apply flt_irrefl.
        -- exact (Hall s' d' Hs' Hd').
      * exists s, d. split; [now right|]. split; [exact Hq|].
        split; [exact Hd|]. split; [exact (flt_trans _ _ _ Hlt E)|].
        intros s' d' [Hs'|Hs'] Hd'.
        -- subst s'. rewrite D0 in Hd'. inversion Hd'; subst.
           destruct (flt F d' d) eqn:E1; [|reflexivity].
           pose proof (flt_trans _ _ _ Hlt E1) as Hc.
           rewrite flt_irrefl in Hc. discriminate.
        -- exact (Hmin s' d' Hs' Hd').
    + destruct H as [[Hq Hall]|(s & d & Hin & Hq & Hd & Hlt & Hmin)].
      * left. split; [exact Hq|].
        intros s d [Hs|Hs] Hd.
        -- subst s. rewrite D0 in Hd. inversion Hd; subst. exact E.
        -- exact (Hall s d Hs Hd).
      * right. exists s, d. split; [now right|]. split; [exact Hq|].
        split; [exact Hd|]. split; [exact Hlt|].
        intros s' d' [Hs'|Hs'] Hd'.
        -- subst s'. rewrite D0 in Hd'. inversion Hd'; subst.
           destruct (flt F d' d) eqn:E1; [|reflexivity].
           rewrite (flt_trans _ _ _ E1 Hlt) in E. discriminate.
        -- exact (Hmin s' d' Hs' Hd').
Qed.

(** X7.  Where [<] on floats is irreflexive and transitive, as it is on
    doubles, the stop pose computed for a light is a configured stop line
    whose computed distance to the light is below [1e6] and below which no
    stop line's computed distance lies; or, when no stop line's computed
    distance is below [1e6] (the empty table included), the default pose at
    the origin. *)
Theorem stop_pose_is_nearest_stop_line :
  forall (light : TrafficLight) (self : TLDetector) (q : Point),
    stop_pose_of light self = Ok q ->
    let light_x := px (light_position light) in
    let light_y := py (light_position light) in
    (exists s d,
       In s (stop_line_positions (config self)) /\
       q = mkPoint (fst s) (snd s) /\
       distance light_x light_y (fst s) (snd s) = Ok d /\
       flt F d (flit F 1000000) = true /\
       forall s' d', In s' (stop_line_positions (config self)) ->
                     distance light_x light_y (fst s') (snd s') = Ok d' ->
                     flt F d' d = false) \/
    (q = mkPoint (flit F 0) (flit F 0) /\
     forall s d, In s (stop_line_positions (config self)) ->
                 distance light_x light_y (fst s) (snd s) = Ok d ->
                 flt F d (flit F 1000000) = false).
Proof.
  intros light self q H light_x light_y. unfold stop_pose_of in H.
  apply stop_line_loop_spec in H.
  destruct H as [H|H]; [right|left]; exact H.
Qed.

End OrderedDistances.

(** ** Equations of [light_found], of the light loop and of the two modes *)

Lemma bind_lift {A B} (r : res A) (k : A -> M B) (self : TLDetector) :
  bind (lift r) k self =
  match r with
  | Ok a => k a self
  | Raise e => (Raise e, self, [])
  end.
Proof.
  unfold bind, lift. destruct r as [a|e]; [|reflexivity].
  now destruct (k a self) as [[r s] l].
Qed.

Lemma light_found_eq (light : TrafficLight) (self : TLDetector) :
  light_found light self =
  match get_light_state self with
  | (Ok pred_state, _, l1) =>
      match stop_pose_of light self with
      | Ok light_stop_pose =>
          match get_closest_waypoint light_stop_pose self with
          | (Ok light_stop_wp, _, _) =>
              (Ok (light_stop_wp, pred_state), self, l1)
          | (Raise e, _, _) => (Raise e, self, l1)
          end
      | Raise e => (Raise e, self, l1)
      end
  | (Raise e, _, l1) => (Raise e, self, l1)
  end.
Proof.
  unfold light_found. unfold bind at 1.
  destruct (read_only_get_light_state self) as [Hs _].
  destruct (get_light_state self) as [[[pred_state|e] self1] l1];
    simpl in Hs; subst self1; [|reflexivity].
  rewrite bind_get, bind_lift.
  destruct (stop_pose_of light self) as [q|e]; [|now rewrite app_nil_r].
  unfold bind. rewrite get_closest_waypoint_eq.
  destruct (waypoints self) as [wps|]; simpl.
  - destruct (closest_loop _ wps 0 _ _ None); simpl; now rewrite ?app_nil_r.
  - now rewrite app_nil_r.
Qed.

Lemma lights_loop_none (x y car_orient : float F) (ls : list TrafficLight)
    (self : TLDetector) :
  Forall (fun l => light_in_view self x y car_orient l = Ok false) ls ->
  lights_loop x y car_orient ls self = (Ok None, self, []).
Proof.
  induction 1 as [|light rest Hl _ IH]; simpl; [reflexivity|].
  now rewrite bind_get, bind_lift, Hl.
Qed.

Lemma lights_loop_first (x y car_orient : float F)
    (before after : list TrafficLight) (light : TrafficLight)
    (self : TLDetector) :
  Forall (fun l => light_in_view self x y car_orient l = Ok false) before ->
  light_in_view self x y car_orient light = Ok true ->
  lights_loop x y car_orient (before ++ light :: after) self =
  match light_found light self with
  | (Ok r, self1, l1) => (Ok (Some r), self1, l1)
  | (Raise e, self1, l1) => (Raise e, self1, l1)
  end.
Proof.
  intros Hb Hl. induction Hb as [|l0 rest Hl0 _ IH]; simpl.
  - rewrite bind_get, bind_lift, Hl. unfold bind, ret.
    destruct (light_found light self) as [[[r|e] self1] l1];
      [|reflexivity].
    now rewrite app_nil_r.
  - now rewrite bind_get, bind_lift, Hl0.
Qed.

Lemma lights_loop_raise (x y car_orient : float F)
    (before after : list TrafficLight) (light : TrafficLight)
    (self : TLDetector) (e : exn) :
  Forall (fun l => light_in_view self x y car_orient l = Ok false) before ->
  light_in_view self x y car_orient light = Raise e ->
  lights_loop x y car_orient (before ++ light :: after) self =
  (Raise e, self, []).
Proof.
  intros Hb Hl. induction Hb as [|l0 rest Hl0 _ IH]; simpl.
  - now rewrite bind_get, bind_lift, Hl.
  - now rewrite bind_get, bind_lift, Hl0.
Qed.

(** How a scan of the registry ends: at its end, at the first light in
    view, or at the first light whose distance raises. *)
Lemma lights_scan (self : TLDetector) (x y car_orient : float F)
    (ls : list TrafficLight) :
  Forall (fun l => light_in_view self x y car_orient l = Ok false) ls \/
  exists before light after,
    ls = before ++ light :: after /\
    Forall (fun l => light_in_view self x y car_orient l = Ok false) before /\
    (light_in_view self x y car_orient light = Ok true \/
     exists e, light_in_view self x y car_orient light = Raise e).
Proof.
  induction ls as [|l0 rest IH]; [left; constructor|].
  destruct (light_in_view self x y car_orient l0) as [[|]|e] eqn:E.
  - right. exists [], l0, rest.
    split; [reflexivity|]. split; [constructor|now left].
  - destruct IH as [IH|(before & light & after & Hl & Hb & Hv)].
    + left. constructor; assumption.
    + right. exists (l0 :: before), light, after. subst rest.
      split; [reflexivity|]. split; [constructor; assumption|exact Hv].
  - right. exists [], l0, rest.
    split; [reflexivity|]. split; [constructor|right; now exists e].
Qed.

Lemma process_traffic_lights_simulator (self : TLDetector)
    (wps : list Waypoint) (p : PoseStamped) :
  waypoints self = Some wps -> site self = false -> pose self = Some p ->
  process_traffic_lights self =
  match lights_loop (px (position p)) (py (position p)) (car_orient_of p)
          (lights self) self with
  | (Ok None, self1, l1) => (Ok (Some (Some (-1), 4)), self1, l1)
  | (Ok (Some r), self1, l1) => (Ok (Some r), self1, l1)
  | (Raise e, self1, l1) => (Raise e, self1, l1)
  end.
Proof.
  intros Hwps Hsite Hpose.
  unfold process_traffic_lights. rewrite bind_get, Hwps, Hsite, Hpose.
  unfold bind, ret. cbv beta iota zeta delta [negb].
  destruct (lights_loop (px (position p)) (py (position p)) (car_orient_of p)
              (lights self) self) as [[[[r|]|e0] self1] l1];
    simpl; rewrite ?app_nil_r; reflexivity.
Qed.

Lemma process_traffic_lights_site (self : TLDetector) (wps : list Waypoint) :
  waypoints self = Some wps -> site self = true ->
  process_traffic_lights self =
  match get_closest_waypoint site_stop_point self with
  | (Ok light_stop_wp, _, _) =>
      match get_light_state self with
      | (Ok pred_state, _, l1) =>
          (Ok (Some (light_stop_wp, pred_state)), self, l1)
      | (Raise e, _, l1) => (Raise e, self, l1)
      end
  | (Raise e, _, _) => (Raise e, self, [])
  end.
Proof.
  intros Hwps Hsite.
  unfold process_traffic_lights. rewrite bind_get, Hwps, Hsite.
  cbv beta iota delta [negb]. unfold bind. fold site_stop_point.
  rewrite get_closest_waypoint_eq, Hwps.
  destruct (closest_loop _ wps 0 _ _ None); [|reflexivity].
  destruct (read_only_get_light_state self) as [Hs _].
  destruct (get_light_state self) as [[[pred_state|e] self1] l1];
    simpl in Hs; subst self1; simpl; now rewrite ?app_nil_r.
Qed.

Lemma process_traffic_lights_no_path (self : TLDetector) :
  waypoints self = None ->
  process_traffic_lights self = (Ok None, self, []).
Proof.
  intros H. unfold process_traffic_lights. now rewrite bind_get, H.
Qed.

Lemma process_traffic_lights_no_pose (self : TLDetector)
    (wps : list Waypoint) :
  waypoints self = Some wps -> site self = false -> pose self = None ->
  process_traffic_lights self = (Raise AttributeError, self, []).
Proof.
  intros Hw Hs Hp. unfold process_traffic_lights.
  now rewrite bind_get, Hw, Hs, Hp.
Qed.

Lemma get_light_state_stored (now_time : float F) (msg : Image)
    (self : TLDetector) :
  get_light_state (frame_stored now_time msg self) =
  (get_classification msg, frame_stored now_time msg self,
   [Classify msg (processing_image self)]).
Proof.
  now rewrite get_light_state_eq.
Qed.

Lemma image_cb_classified (now_time : float F) (msg : Image)
    (self : TLDetector) :
  accepts self now_time = true ->
  classified (snd (image_cb now_time msg self)) =
  classified (snd (process_traffic_lights (frame_stored now_time msg self))).
Proof.
  intros Ha. rewrite image_cb_eq, Ha.
  destruct (process_traffic_lights (frame_stored now_time msg self))
    as [[[[[wp st]|]|e] self1] l1]; try reflexivity.
  destruct (debounce_quiet wp st self1) as [Hq _].
  destruct (debounce wp st self1) as [[r self2] l2]; simpl in *.
  now rewrite classified_app, Hq, app_nil_r.
Qed.

(** The classifier calls of [process_traffic_lights] on a stored frame, in
    simulator mode with a path and a pose. *)
Lemma simulator_calls (now_time : float F) (msg : Image) (self : TLDetector)
    (wps : list Waypoint) (p : PoseStamped) :
  waypoints self = Some wps -> site self = false -> pose self = Some p ->
  let fs := frame_stored now_time msg self in
  let in_view := light_in_view self (px (position p)) (py (position p))
                   (car_orient_of p) in
  (forall before light after,
     lights self = before ++ light :: after ->
     Forall (fun l => in_view l = Ok false) before ->
     in_view light = Ok true ->
     classified (snd (process_traffic_lights fs)) =
       [(msg, processing_image self)]) /\
  (Forall (fun l => in_view l = Ok false) (lights self) ->
   process_traffic_lights fs = (Ok (Some (Some (-1), 4)), fs, [])) /\
  (forall before light after e,
     lights self = before ++ light :: after ->
     Forall (fun l => in_view l = Ok false) before ->
     in_view light = Raise e ->
     process_traffic_lights fs = (Raise e, fs, [])).
Proof.
  intros Hw Hs Hp fs in_view.
  assert (Hproc := process_traffic_lights_simulator fs wps p Hw Hs Hp).
  change (lights fs) with (lights self) in Hproc.
  assert (Hview : forall l,
            light_in_view fs (px (position p)) (py (position p))
              (car_orient_of p) l = in_view l) by reflexivity.
  assert (Hall : forall ls,
            Forall (fun l => in_view l = Ok false) ls ->
            Forall (fun l => light_in_view fs (px (position p))
                               (py (position p)) (car_orient_of p) l
                             = Ok false) ls).
  { intros ls H. eapply Forall_impl; [|exact H].
    intros l Hl. now rewrite Hview. }
  split; [|split].
  - intros before light after Hl Hb Hv.
    rewrite Hproc, Hl,
      (lights_loop_first _ _ _ before after light fs (Hall _ Hb) Hv).
    rewrite light_found_eq. unfold fs at 1. rewrite get_light_state_stored.
    destruct (get_classification msg) as [c|e]; [|reflexivity].
    fold fs.
    destruct (stop_pose_of light fs) as [q|e]; [|reflexivity].
    destruct (get_closest_waypoint q fs) as [[[w|e] s1] l1]; reflexivity.
  - intros Hnone.
    now rewrite Hproc, (lights_loop_none _ _ _ _ fs (Hall _ Hnone)).
  - intros before light after e Hl Hb Hv.
    now rewrite Hproc, Hl,
      (lights_loop_raise _ _ _ before after light fs e (Hall _ Hb) Hv).
Qed.

(** The same in site mode. *)
Lemma site_calls (now_time : float F) (msg : Image) (self : TLDetector)
    (wps : list Waypoint) :
  waypoints self = Some wps -> site self = true ->
  let fs := frame_stored now_time msg self in
  (existsb (within_start site_stop_point) wps = true ->
   classified (snd (process_traffic_lights fs)) =
     [(msg, processing_image self)]) /\
  (existsb (within_start site_stop_point) wps = false ->
   process_traffic_lights fs = (Raise UnboundLocalError, fs, [])).
Proof.
  intros Hw Hs fs.
  assert (Hproc := process_traffic_lights_site fs wps Hw Hs).
  destruct (get_closest_waypoint_cases site_stop_point fs wps Hw)
    as [Hyes Hno].
  split; intros Hex.
  - rewrite Hproc. destruct (Hyes Hex) as (i & Hg). rewrite Hg.
    unfold fs at 1. rewrite get_light_state_stored.
    destruct (get_classification msg); reflexivity.
  - now rewrite Hproc, (Hno Hex).
Qed.

(** ** What each handler leaves alone *)

Lemma run_app (msgs1 msgs2 : list Msg) (self : TLDetector) :
  run self (msgs1 ++ msgs2) =
  (fst (run (fst (run self msgs1)) msgs2),
   snd (run self msgs1) ++ snd (run (fst (run self msgs1)) msgs2)).
Proof.
  revert self. induction msgs1 as [|m rest IH]; intros self; simpl.
  - now destruct (run self msgs2).
  - destruct (dispatch m self) as [[r self1] l1]. rewrite IH.
    destruct (run self1 rest) as [self2 l2]. simpl.
    now rewrite app_assoc.
Qed.

Lemma debounce_frame (light_wp : option Z) (state_in : Z) (self : TLDetector) :
  same_constants self (snd (fst (debounce light_wp state_in self))) /\
  same_stores self (snd (fst (debounce light_wp state_in self))) /\
  last_image_time (snd (fst (debounce light_wp state_in self))) =
    last_image_time self.
Proof.
  rewrite debounce_eq. unfold same_constants, same_stores.
  destruct (which_branch self state_in); simpl.
  - repeat split.
  - destruct (if state_in =? RED then light_wp else Some (-1)); repeat split.
  - destruct (last_wp self); repeat split.
Qed.

(** The state [image_cb] ends in: [self] itself when the frame is dropped,
    the stored frame when the pipeline stops before line 111, the result of
    the debounce logic otherwise. *)
Lemma image_cb_state (now_time : float F) (msg : Image) (self : TLDetector) :
  (accepts self now_time = false /\
   image_cb now_time msg self = (Ok tt, self, [])) \/
  (accepts self now_time = true /\
   ((fired (ImageColor now_time msg) self = None /\
     snd (fst (image_cb now_time msg self)) = frame_stored now_time msg self /\
     published (snd (image_cb now_time msg self)) = [] /\
     fst (fst (image_cb now_time msg self)) <> Ok tt) \/
    (exists light_wp state_in l1,
       process_traffic_lights (frame_stored now_time msg self) =
         (Ok (Some (light_wp, state_in)), frame_stored now_time msg self, l1) /\
       published l1 = [] /\
       fired (ImageColor now_time msg) self =
         Some (which_branch (frame_stored now_time msg self) state_in) /\
       fst (fst (image_cb now_time msg self)) =
         fst (fst (debounce light_wp state_in (frame_stored now_time msg self))) /\
       snd (fst (image_cb now_time msg self)) =
         snd (fst (debounce light_wp state_in (frame_stored now_time msg self))) /\
       published (snd (image_cb now_time msg self)) =
         published (snd (debounce light_wp state_in
                           (frame_stored now_time msg self)))))).
Proof.
  rewrite image_cb_eq. simpl fired. unfold image_branch.
  destruct (accepts self now_time); [right|left; split; reflexivity].
  split; [reflexivity|].
  destruct (read_only_process_traffic_lights (frame_stored now_time msg self))
    as [Hs Hp].
  destruct (process_traffic_lights (frame_stored now_time msg self))
    as [[[[[wp st]|]|e] self1] l1]; simpl in Hs, Hp; subst self1.
  - right. exists wp, st, l1. split; [reflexivity|]. split; [exact Hp|].
    split; [reflexivity|].
    destruct (debounce wp st (frame_stored now_time msg self))
      as [[r self2] l2]; simpl.
    repeat split. now rewrite published_app, Hp.
  - left. simpl. repeat split; [exact Hp|discriminate].
  - left. simpl. repeat split; [exact Hp|discriminate].
Qed.

Lemma dispatch_constants (m : Msg) (self : TLDetector) :
  same_constants self (snd (fst (dispatch m self))).
Proof.
  destruct m as [msg|wps|ls|now_time msg]; simpl.
  - repeat split.
  - unfold waypoints_cb, bind, get, modify, ret.
    destruct (got_waypoints self); repeat split.
  - repeat split.
  - destruct (image_cb_state now_time msg self)
      as [[_ H]|[_ [(_ & H & _)|(wp & st & l1 & _ & _ & _ & _ & H & _)]]];
      rewrite H.
    + repeat split.
    + repeat split.
    + destruct (debounce_frame wp st (frame_stored now_time msg self))
        as [Hc _]. exact Hc.
Qed.

Lemma run_constants (msgs : list Msg) (self : TLDetector) :
  same_constants self (fst (run self msgs)).
Proof.
  revert self. induction msgs as [|m rest IH]; intros self; simpl.
  - repeat split.
  - pose proof (dispatch_constants m self) as H1.
    destruct (dispatch m self) as [[r self1] l1]; simpl in H1.
    specialize (IH self1). destruct (run self1 rest) as [self2 l2].
    simpl in *. unfold same_constants in *.
    destruct H1 as (? & ? & ? & ? & ?), IH as (? & ? & ? & ? & ?).
    repeat split; congruence.
Qed.

Lemma reachable_not_busy (self : TLDetector) :
  reachable self -> processing_image self = false.
Proof.
  intros (now & cfg & msgs & Hr). subst self.
  now destruct (run_constants msgs (init now cfg)) as (_ & _ & _ & _ & <-).
Qed.

(** X1.  In every reachable state the look-ahead bounds are the 100 and 25
    of [__init__], [site] is the configured [is_site], and
    [processing_image] is false: no handler assigns any of them. *)
Theorem constants_never_change :
  forall self : TLDetector,
    reachable self ->
    max_look_ahead_distance self = flit F 100 /\
    min_look_ahead_distance self = flit F 25 /\
    site self = is_site (config self) /\
    processing_image self = false.
Proof.
  intros self (now & cfg & msgs & Hr). subst self.
  destruct (run_constants msgs (init now cfg)) as (Hc & Hs & Hmax & Hmin & Hp).
  rewrite <- Hc, <- Hs, <- Hmax, <- Hmin, <- Hp. repeat split.
Qed.

(** ** The pose, path and light stores *)

Lemma dispatch_stores (m : Msg) (self : TLDetector) :
  pose (snd (fst (dispatch m self))) =
    match m with CurrentPose msg => Some msg | _ => pose self end /\
  lights (snd (fst (dispatch m self))) =
    match m with TrafficLights ls => ls | _ => lights self end /\
  waypoints (snd (fst (dispatch m self))) =
    match m with
    | BaseWaypoints wps =>
        if got_waypoints self then waypoints self else Some wps
    | _ => waypoints self
    end /\
  got_waypoints (snd (fst (dispatch m self))) =
    match m with BaseWaypoints _ => true | _ => got_waypoints self end.
Proof.
  destruct m as [msg|wps|ls|now_time msg]; simpl.
  - repeat split.
  - unfold waypoints_cb, bind, get, modify, ret.
    destruct (got_waypoints self) eqn:E; simpl; repeat split; congruence.
  - repeat split.
  - destruct (image_cb_state now_time msg self)
      as [[_ H]|[_ [(_ & H & _)|(wp & st & l1 & _ & _ & _ & _ & H & _)]]];
      rewrite H.
    + repeat split.
    + repeat split.
    + destruct (debounce_frame wp st (frame_stored now_time msg self))
        as (_ & (H1 & H2 & H3 & H4) & _).
      rewrite <- H1, <- H2, <- H3, <- H4. repeat split.
Qed.

Lemma run_cons (m : Msg) (rest : list Msg) (self : TLDetector) :
  fst (run self (m :: rest)) = fst (run (snd (fst (dispatch m self))) rest).
Proof.
  simpl. destruct (dispatch m self) as [[r self1] l1]. simpl.
  now destruct (run self1 rest).
Qed.

Lemma run_path_locked (msgs : list Msg) (self : TLDetector) :
  got_waypoints self = true ->
  waypoints (fst (run self msgs)) = waypoints self /\
  got_waypoints (fst (run self msgs)) = true.
Proof.
  revert self. induction msgs as [|m rest IH]; intros self Hg.
  - split; [reflexivity|exact Hg].
  - rewrite run_cons.
    destruct (dispatch_stores m self) as (_ & _ & Hw & Hgw).
    destruct (IH (snd (fst (dispatch m self)))) as [IH1 IH2].
    + rewrite Hgw. destruct m; try exact Hg. reflexivity.
    + rewrite IH1, Hw, Hg. split; [now destruct m|exact IH2].
Qed.

Lemma run_no_path_message (msgs : list Msg) (self : TLDetector) :
  (forall wps, ~ In (BaseWaypoints wps) msgs) ->
  waypoints (fst (run self msgs)) = waypoints self /\
  got_waypoints (fst (run self msgs)) = got_waypoints self.
Proof.
  revert self. induction msgs as [|m rest IH]; intros self Hno.
  - split; reflexivity.
  - rewrite run_cons.
    destruct (dispatch_stores m self) as (_ & _ & Hw & Hgw).
    destruct (IH (snd (fst (dispatch m self)))) as [IH1 IH2].
    + intros wps Hin. apply (Hno wps). now right.
    + rewrite IH1, IH2, Hw, Hgw.
      destruct m as [msg|wps|ls|now_time msg]; try (split; reflexivity).
      exfalso. apply (Hno wps). now left.
Qed.

(** X2.  The path is set once: a fresh node has no path until the first
    /base_waypoints message, takes the waypoints of that message, and keeps
    them whatever messages follow, later /base_waypoints messages included. *)
Theorem path_first_write_wins :
  forall (now : float F) (cfg : Config) (before after : list Msg)
         (wps : list Waypoint),
    (forall wps', ~ In (BaseWaypoints wps') before) ->
    waypoints (fst (run (init now cfg) before)) = None /\
    waypoints (fst (run (init now cfg)
                      (before ++ BaseWaypoints wps :: after))) = Some wps.
Proof.
  intros now cfg before after wps Hno.
  destruct (run_no_path_message before (init now cfg) Hno) as [Hw Hg].
  split; [exact Hw|].
  rewrite run_app. cbn [fst]. rewrite run_cons.
  destruct (dispatch_stores (BaseWaypoints wps) (fst (run (init now cfg) before)))
    as (_ & _ & Hw1 & Hg1).
  destruct (run_path_locked after _ Hg1) as [H1 _].
  rewrite H1, Hw1, Hg. reflexivity.
Qed.

Lemma run_no_pose_message (msgs : list Msg) (self : TLDetector) :
  (forall msg, ~ In (CurrentPose msg) msgs) ->
  pose (fst (run self msgs)) = pose self.
Proof.
  revert self. induction msgs as [|m rest IH]; intros self Hno.
  - reflexivity.
  - rewrite run_cons, IH.
    + destruct (dispatch_stores m self) as (Hp & _). rewrite Hp.
      destruct m as [msg|wps|ls|now_time msg]; try reflexivity.
      exfalso. apply (Hno msg). now left.
    + intros msg Hin. apply (Hno msg). now right.
Qed.

Lemma run_no_lights_message (msgs : list Msg) (self : TLDetector) :
  (forall ls, ~ In (TrafficLights ls) msgs) ->
  lights (fst (run self msgs)) = lights self.
Proof.
  revert self. induction msgs as [|m rest IH]; intros self Hno.
  - reflexivity.
  - rewrite run_cons, IH.
    + destruct (dispatch_stores m self) as (_ & Hl & _). rewrite Hl.
      destruct m as [msg|wps|ls|now_time msg]; try reflexivity.
      exfalso. apply (Hno ls). now left.
    + intros ls Hin. apply (Hno ls). now right.
Qed.

(** X3.  The pose store and the light registry hold the latest message:
    after any messages, [pose] is the last /current_pose received and
    [lights] the list of the last /vehicle/traffic_lights received, whatever
    came before and whatever other messages (camera frames included) came
    after. *)
Theorem stores_hold_latest :
  forall (self : TLDetector) (before after : list Msg),
    (forall msg,
       (forall msg', ~ In (CurrentPose msg') after) ->
       pose (fst (run self (before ++ CurrentPose msg :: after))) = Some msg) /\
    (forall ls,
       (forall ls', ~ In (TrafficLights ls') after) ->
       lights (fst (run self (before ++ TrafficLights ls :: after))) = ls).
Proof.
  intros self before after. split.
  - intros msg Hno. rewrite run_app. cbn [fst]. rewrite run_cons.
    rewrite (run_no_pose_message after _ Hno).
    now destruct (dispatch_stores (CurrentPose msg) (fst (run self before))).
  - intros ls Hno. rewrite run_app. cbn [fst]. rewrite run_cons.
    rewrite (run_no_lights_message after _ Hno).
    now destruct (dispatch_stores (TrafficLights ls) (fst (run self before)))
      as (_ & H & _).
Qed.

(** ** The frame rate limit *)

Lemma dispatch_clock (m : Msg) (self : TLDetector) :
  last_image_time (snd (fst (dispatch m self))) =
  match m with
  | ImageColor now_time _ =>
      if accepts self now_time then now_time else last_image_time self
  | _ => last_image_time self
  end.
Proof.
  destruct m as [msg|wps|ls|now_time msg]; simpl; try reflexivity.
  - unfold waypoints_cb, bind, get, modify, ret.
    now destruct (got_waypoints self).
  - destruct (image_cb_state now_time msg self)
      as [[Ha H]|[Ha [(_ & H & _)|(wp & st & l1 & _ & _ & _ & _ & H & _)]]];
      rewrite H, Ha; try reflexivity.
    now destruct (debounce_frame wp st (frame_stored now_time msg self))
      as (_ & _ & ->).
Qed.

Lemma last_default {A} (l : list A) (a d d' : A) :
  last (a :: l) d = last (a :: l) d'.
Proof.
  revert a. induction l as [|b rest IH]; intros a; [reflexivity|].
  change (last (b :: rest) d = last (b :: rest) d'). apply IH.
Qed.

Lemma last_cons {A} (l : list A) (a d : A) : last (a :: l) d = last l a.
Proof.
  destruct l as [|b rest]; [reflexivity|].
  change (last (b :: rest) d = last (b :: rest) a). apply last_default.
Qed.

(** [last_image_time] is the reading of the last frame that passed. *)
Lemma run_clock_last (msgs : list Msg) (self : TLDetector) :
  last_image_time (fst (run self msgs)) =
  last (accepted_stamps self msgs) (last_image_time self).
Proof.
  revert self. induction msgs as [|m rest IH]; intros self; [reflexivity|].
  rewrite run_cons, IH, dispatch_clock. cbn [accepted_stamps].
  destruct m as [msg|wps|ls|now_time msg]; try reflexivity.
  destruct (accepts self now_time); [|reflexivity].
  cbn [app]. now rewrite last_cons.
Qed.

(** [last_image_time] after a frame stamped [t1] has passed and further
    messages were handled: still [t1], or the stamp of a later frame that
    compared above [t1 + 0.1]. *)
Lemma run_clock_spaced (t1 : float F) (A B : list (float F))
    (msgs : list Msg) (self : TLDetector) :
  (forall a b c : float F,
     flt F a b = true -> flt F b c = true -> flt F a c = true) ->
  (forall a b, In a A -> In b B ->
     flt F (fadd F a (flit F (1 # 10))) b = true -> flt F a b = true) ->
  incl (frame_stamps msgs) A ->
  incl (frame_stamps msgs) B ->
  (last_image_time self = t1 \/
   (In (last_image_time self) A /\
    flt F (fadd F t1 (flit F (1 # 10))) (last_image_time self) = true)) ->
  last_image_time (fst (run self msgs)) = t1 \/
  (In (last_image_time (fst (run self msgs))) A /\
   flt F (fadd F t1 (flit F (1 # 10)))
     (last_image_time (fst (run self msgs))) = true).
Proof.
  intros flt_trans Hlaw. revert self.
  induction msgs as [|m rest IH]; intros self HA HB Hinv.
  - exact Hinv.
  - rewrite run_cons.
    assert (HA' : incl (frame_stamps rest) A).
    { intros a Ha. apply HA. simpl. apply in_or_app. now right. }
    assert (HB' : incl (frame_stamps rest) B).
    { intros a Ha. apply HB. simpl. apply in_or_app. now right. }
    apply IH; [exact HA'|exact HB'|].
    rewrite dispatch_clock.
    destruct m as [msg|wps|ls|now_time msg]; try exact Hinv.
    destruct (accepts self now_time) eqn:Hacc; [|exact Hinv].
    apply accepts_iff in Hacc. destruct Hacc as [_ Hacc].
    assert (HinA : In now_time A) by (apply HA; simpl; now left).
    assert (HinB : In now_time B) by (apply HB; simpl; now left).
    right. split; [exact HinA|].
    destruct Hinv as [Heq|[Hin Hlt]].
    + now rewrite <- Heq.
    + apply flt_trans with (last_image_time self); [exact Hlt|].
      now apply Hlaw.
Qed.

(** X4.  Frames that pass the guard of [image_cb] are more than 0.1 apart,
    as line 91 computes it.  Once a frame stamped [t1] has passed, whatever
    messages arrive in between and whether or not the handler of that frame
    ended in an exception, a later frame stamped [t2] passes only if [t2]
    compares above [prev + 0.1], where [prev] is the stamp of the last
    frame that passed before it.  It then compares above [t1 + 0.1] as
    well, where the comparison is transitive (as it is on doubles) and
    where a later stamp of the run that compares above [s + 0.1], for the
    stamp [s] of a frame in between, compares above [s] too: adding 0.1
    does not round downwards. *)
Theorem accepted_frames_are_spaced :
  forall (self : TLDetector) (t1 t2 : float F) (img1 : Image)
         (between : list Msg),
    accepts self t1 = true ->
    accepts (fst (run self (ImageColor t1 img1 :: between))) t2 = true ->
    let prev :=
      last (accepted_stamps self (ImageColor t1 img1 :: between)) t1 in
    flt F (fadd F prev (flit F (1 # 10))) t2 = true /\
    ((forall a b c : float F,
        flt F a b = true -> flt F b c = true -> flt F a c = true) ->
     (forall a b,
        In a (frame_stamps between) ->
        In b (frame_stamps between ++ [t2]) ->
        flt F (fadd F a (flit F (1 # 10))) b = true -> flt F a b = true) ->
     flt F (fadd F t1 (flit F (1 # 10))) t2 = true).
Proof.
  intros self t1 t2 img1 between H1 H2 prev.
  apply accepts_iff in H2. destruct H2 as [_ H2]. split.
  - subst prev. rewrite run_clock_last in H2.
    cbn [accepted_stamps] in H2 |- *. rewrite H1 in H2 |- *.
    cbn [app] in H2 |- *.
    rewrite (last_default _ _ _ (last_image_time self)).
    exact H2.
  - intros flt_trans Hlaw. rewrite run_cons in H2.
    destruct (run_clock_spaced t1 (frame_stamps between)
                (frame_stamps between ++ [t2]) between
                (snd (fst (dispatch (ImageColor t1 img1) self)))
                flt_trans Hlaw)
      as [Heq|[Hin Hlt]].
    + apply incl_refl.
    + apply incl_appl, incl_refl.
    + left. now rewrite dispatch_clock, H1.
    + now rewrite Heq in H2.
    + apply flt_trans with (1 := Hlt).
      apply Hlaw; [exact Hin| |exact H2].
      apply in_or_app. right. now left.
Qed.

(** ** The guard of [image_cb] and the classifier *)

(** C6 (as amended).  A frame goes past the guard of [image_cb] only if
    [processing_image] is false and the clock reading compares above
    [last_image_time + 0.1], where [last_image_time] is the clock reading
    at construction until a frame has passed and the reading of the last
    frame that passed from then on (no other message changes it); a frame
    that does not go past the guard is dropped: the handler returns at
    once, leaving the object as it was, publishing nothing and calling
    nothing.  On a frame that goes past the guard with a path stored, the
    classifier is called exactly once, on that frame, whenever a light is
    selected: in site mode once a waypoint passes the test of
    [get_closest_waypoint] for the fixed stop point, in simulator mode with
    a pose stored when the scan reaches a light that passes the look-ahead
    test.  When the scan ends with no light passing, it is not called. *)
Theorem image_gate :
  forall (self : TLDetector) (now_time : float F) (msg : Image),
    (accepts self now_time = true ->
     processing_image self = false /\
     flt F (fadd F (last_image_time self) (flit F (1 # 10))) now_time = true) /\
    (accepts self now_time = false ->
     image_cb now_time msg self = (Ok tt, self, [])) /\
    (forall now cfg, last_image_time (init now cfg) = now) /\
    (forall m,
       last_image_time (snd (fst (dispatch m self))) =
       match m with
       | ImageColor t _ => if accepts self t then t else last_image_time self
       | _ => last_image_time self
       end) /\
    (accepts self now_time = true ->
     forall wps, waypoints self = Some wps ->
       (site self = true ->
        existsb (within_start site_stop_point) wps = true ->
        map fst (classified (snd (image_cb now_time msg self))) = [msg]) /\
       (site self = false ->
        forall p, pose self = Some p ->
          let in_view := light_in_view self (px (position p))
                           (py (position p)) (car_orient_of p) in
          (forall before light after,
             lights self = before ++ light :: after ->
             Forall (fun l => in_view l = Ok false) before ->
             in_view light = Ok true ->
             map fst (classified (snd (image_cb now_time msg self))) = [msg]) /\
          (Forall (fun l => in_view l = Ok false) (lights self) ->
           classified (snd (image_cb now_time msg self)) = []))).
Proof.
  intros self now_time msg.
  split; [apply accepts_iff|].
  split; [intros H; now rewrite image_cb_eq, H|].
  split; [reflexivity|].
  split; [intros m; apply dispatch_clock|].
  intros Ha wps Hw. rewrite (image_cb_classified _ _ _ Ha). split.
  - intros Hs Hex.
    destruct (site_calls now_time msg self wps Hw Hs) as [Hyes _].
    now rewrite (Hyes Hex).
  - intros Hs p Hp in_view.
    destruct (simulator_calls now_time msg self wps p Hw Hs Hp)
      as (Hfirst & Hnone & _).
    split.
    + intros before light after Hl Hb Hv.
      now rewrite (Hfirst before light after Hl Hb Hv).
    + intros Hall. now rewrite (Hnone Hall).
Qed.

(** ** Which light is selected *)

(** C8 (as amended).  Without site mode, with a path and a pose stored and
    the look-ahead bounds of [__init__], a light passes the test exactly
    when its distance to the car, as line 211 computes it, compares below
    100 and above 25 (both strictly) and the product of the two
    coordinate-difference sums compares above 1.  A light whose computed
    distance does not compare below 100 does not pass; so, 150 not being
    below 100, a light at distance 150 never does.  The lights are tried in
    the order received: the first one that passes decides the result and
    no later one is looked at; if the scan ends with none passing the
    result is waypoint [-1] with colour 4. *)
Theorem first_light_in_view_wins :
  forall (self : TLDetector) (wps : list Waypoint) (p : PoseStamped),
    waypoints self = Some wps ->
    site self = false ->
    pose self = Some p ->
    max_look_ahead_distance self = flit F 100 ->
    min_look_ahead_distance self = flit F 25 ->
    let x := px (position p) in
    let y := py (position p) in
    let in_view := light_in_view self x y (car_orient_of p) in
    let light_distance light :=
      distance (px (light_position light)) (py (light_position light)) x y in
    (forall light,
       in_view light = Ok true <->
       exists d,
         light_distance light = Ok d /\
         flt F d (flit F 100) = true /\
         flt F (flit F 25) d = true /\
         flt F (flit F 1)
           (fmul F (car_orient_of p) (light_orient_of x y light)) = true) /\
    (forall light d,
       light_distance light = Ok d ->
       flt F d (flit F 100) = false ->
       in_view light = Ok false) /\
    (flt F (flit F 150) (flit F 100) = false ->
     forall light,
       light_distance light = Ok (flit F 150) ->
       in_view light = Ok false) /\
    (forall before light after,
       lights self = before ++ light :: after ->
       Forall (fun l => in_view l = Ok false) before ->
       in_view light = Ok true ->
       process_traffic_lights self =
       match light_found light self with
       | (Ok r, self1, l1) => (Ok (Some r), self1, l1)
       | (Raise e, self1, l1) => (Raise e, self1, l1)
       end) /\
    (Forall (fun l => in_view l = Ok false) (lights self) ->
     process_traffic_lights self = (Ok (Some (Some (-1), 4)), self, [])).
Proof.
  intros self wps p Hwps Hsite Hpose Hmax Hmin x y in_view light_distance.
  assert (Hfar : forall light d,
            light_distance light = Ok d ->
            flt F d (flit F 100) = false ->
            in_view light = Ok false).
  { intros light d Hd Hlt. unfold in_view, light_in_view.
    fold (light_distance light). now rewrite Hd, Hmax, Hlt. }
  assert (Hproc := process_traffic_lights_simulator self wps p Hwps Hsite Hpose).
  fold x y in Hproc.
  split; [|split; [exact Hfar|split; [|split]]].
  - intros light. unfold in_view, light_in_view.
    fold (light_distance light). rewrite Hmax, Hmin.
    destruct (light_distance light) as [d|e].
    + split.
      * intros H. exists d.
        assert (H1 : flt F d (flit F 100) && flt F (flit F 25) d &&
                     flt F (flit F 1)
                       (fmul F (car_orient_of p) (light_orient_of x y light))
                     = true) by congruence.
        apply andb_true_iff in H1. destruct H1 as [H1 H3].
        apply andb_true_iff in H1. destruct H1 as [H1 H2].
        now repeat split.
      * intros (d' & Hd & H1 & H2 & H3). inversion Hd; subst d'.
        now rewrite H1, H2, H3.
    + split; [discriminate|]. intros (d & Hd & _). discriminate.
  - intros H150 light Hd. exact (Hfar light _ Hd H150).
  - intros before light after Hl Hb Hv.
    rewrite Hproc, Hl, (lights_loop_first _ _ _ _ _ _ _ Hb Hv).
    now destruct (light_found light self) as [[[r|e] self1] l1].
  - intros Hall. now rewrite Hproc, (lights_loop_none _ _ _ _ _ Hall).
Qed.

(** ** When the classifier is called *)

(** X12.  In simulator mode with a path and a pose stored, a frame that
    passes the guard follows the scan of the light registry: if the scan
    reaches a light that passes the look-ahead test, the classifier is
    called exactly once, on that frame; if it ends with no light passing,
    the classifier is not called; and if it reaches a light whose distance
    computation raises, the handler raises that exception without calling
    the classifier or publishing. *)
Theorem classifier_called_iff_light_in_view :
  forall (self : TLDetector) (now_time : float F) (msg : Image)
         (wps : list Waypoint) (p : PoseStamped),
    accepts self now_time = true ->
    waypoints self = Some wps ->
    site self = false ->
    pose self = Some p ->
    let in_view := light_in_view self (px (position p)) (py (position p))
                     (car_orient_of p) in
    (forall before light after,
       lights self = before ++ light :: after ->
       Forall (fun l => in_view l = Ok false) before ->
       in_view light = Ok true ->
       classified (snd (image_cb now_time msg self)) = [(msg, false)]) /\
    (Forall (fun l => in_view l = Ok false) (lights self) ->
     classified (snd (image_cb now_time msg self)) = []) /\
    (forall before light after e,
       lights self = before ++ light :: after ->
       Forall (fun l => in_view l = Ok false) before ->
       in_view light = Raise e ->
       image_cb now_time msg self =
         (Raise e, frame_stored now_time msg self, [])).
Proof.
  intros self now_time msg wps p Ha Hw Hs Hp in_view.
  destruct (simulator_calls now_time msg self wps p Hw Hs Hp)
    as (Hfirst & Hnone & Hraise).
  pose proof (proj1 (accepts_iff self now_time) Ha) as [Hbusy _].
  split; [|split].
  - intros before light after Hl Hb Hv.
    rewrite (image_cb_classified _ _ _ Ha),
      (Hfirst before light after Hl Hb Hv).
    now rewrite Hbusy.
  - intros Hall.
    now rewrite (image_cb_classified _ _ _ Ha), (Hnone Hall).
  - intros before light after e Hl Hb Hv.
    now rewrite image_cb_eq, Ha, (Hraise before light after e Hl Hb Hv).
Qed.

(** X13.  In site mode with a path stored, a frame that passes the guard
    calls the classifier exactly once, on that frame, whatever the pose and
    the light registry hold, provided some waypoint passes the test of line
    147 for the fixed stop point (8, 16.2), that is has both computed gaps
    below [1e6]; if none does, the handler raises UnboundLocalError before
    the classifier is reached. *)
Theorem site_mode_classifies_every_frame :
  forall (self : TLDetector) (now_time : float F) (msg : Image)
         (wps : list Waypoint),
    accepts self now_time = true ->
    waypoints self = Some wps ->
    site self = true ->
    (existsb (within_start site_stop_point) wps = true ->
     classified (snd (image_cb now_time msg self)) = [(msg, false)]) /\
    (existsb (within_start site_stop_point) wps = false ->
     image_cb now_time msg self =
       (Raise UnboundLocalError, frame_stored now_time msg self, [])).
Proof.
  intros self now_time msg wps Ha Hw Hs.
  destruct (site_calls now_time msg self wps Hw Hs) as [Hyes Hno].
  pose proof (proj1 (accepts_iff self now_time) Ha) as [Hbusy _].
  split; intros Hex.
  - rewrite (image_cb_classified _ _ _ Ha), (Hyes Hex). now rewrite Hbusy.
  - now rewrite image_cb_eq, Ha, (Hno Hex).
Qed.

(** ** What is published *)

Lemma get_closest_waypoint_some (p : Point) (self self1 : TLDetector)
    (wps : list Waypoint) (w : option Z) (l : list effect) :
  waypoints self = Some wps ->
  get_closest_waypoint p self = (Ok w, self1, l) ->
  exists i, w = Some i /\ 0 <= i < Z.of_nat (length wps).
Proof.
  intros Hwps H. rewrite get_closest_waypoint_eq, Hwps in H.
  destruct (closest_loop p wps 0 (flit F 1000000) (flit F 1000000) None)
    as [ind|] eqn:E; [|discriminate].
  inversion H; subst. exists ind. split; [reflexivity|].
  apply closest_loop_bound in E. destruct E as [E|E]; [discriminate|lia].
Qed.

Lemma lights_loop_result (x y car_orient : float F) (ls : list TrafficLight)
    (self self1 : TLDetector) (r : option Z * Z) (l : list effect) :
  lights_loop x y car_orient ls self = (Ok (Some r), self1, l) ->
  exists light, In light ls /\ light_found light self = (Ok r, self1, l).
Proof.
  induction ls as [|light rest IH]; simpl; [discriminate|].
  rewrite bind_get, bind_lift.
  destruct (light_in_view self x y car_orient light) as [[|]|e].
  - unfold bind, ret.
    destruct (light_found light self) as [[[r0|e] s0] l0] eqn:E;
      [|discriminate].
    rewrite app_nil_r. intros H. inversion H; subst.
    exists light. split; [now left|exact E].
  - intros H. destruct (IH H) as (l0 & Hin & Hl).
    exists l0. split; [now right|exact Hl].
  - discriminate.
Qed.

Lemma process_result_valid (self self1 : TLDetector) (wp : option Z)
    (st : Z) (l : list effect) :
  process_traffic_lights self = (Ok (Some (wp, st)), self1, l) ->
  exists i, wp = Some i /\ valid_wp (waypoints self) i.
Proof.
  intros H.
  destruct (waypoints self) as [wps|] eqn:Hw;
    [|rewrite process_traffic_lights_no_path in H by exact Hw; discriminate].
  destruct (site self) eqn:Hs.
  - rewrite (process_traffic_lights_site self wps Hw Hs) in H.
    destruct (get_closest_waypoint site_stop_point self)
      as [[[w|e] s0] l0] eqn:G; [|discriminate].
    destruct (get_closest_waypoint_some _ _ _ _ _ _ Hw G) as (i & Hi & Hr).
    destruct (get_light_state self) as [[[ps|e] s1] l1]; [|discriminate].
    inversion H; subst. exists i. split; [reflexivity|].
    right. now exists wps.
  - destruct (pose self) as [p|] eqn:Hp;
      [|rewrite (process_traffic_lights_no_pose self wps Hw Hs Hp) in H;
        discriminate].
    rewrite (process_traffic_lights_simulator self wps p Hw Hs Hp) in H.
    destruct (lights_loop _ _ _ (lights self) self)
      as [[[[r|]|e] s0] l0] eqn:L; [| |discriminate].
    + inversion H; subst.
      destruct (lights_loop_result _ _ _ _ _ _ _ _ L) as (light & _ & Hl).
      rewrite light_found_eq in Hl.
      destruct (get_light_state self) as [[[ps|e] s1] l1]; [|discriminate].
      destruct (stop_pose_of light self) as [q|e]; [|discriminate].
      destruct (get_closest_waypoint q self)
        as [[[w|e] s2] l2] eqn:G; [|discriminate].
      destruct (get_closest_waypoint_some _ _ _ _ _ _ Hw G) as (i & Hi & Hr).
      inversion Hl; subst. exists i. split; [reflexivity|].
      right. now exists wps.
    + inversion H; subst. exists (-1). split; [reflexivity|now left].
Qed.

Lemma dispatch_store_invariant (m : Msg) (self : TLDetector) :
  store_invariant self ->
  store_invariant (snd (fst (dispatch m self))) /\
  (forall v, In v (published (snd (dispatch m self))) ->
             valid_wp (waypoints (snd (fst (dispatch m self)))) v) /\
  (fired m self <> None -> fst (fst (dispatch m self)) = Ok tt) /\
  length (published (snd (dispatch m self))) =
    match fired m self with
    | Some Branch2 | Some Branch3 => 1%nat
    | _ => 0%nat
    end.
Proof.
  intros [Hg (v0 & Hv0 & Hvalid)].
  destruct m as [msg|wps|ls|now_time msg].
  - simpl. repeat split; try contradiction.
    + exact Hg.
    + now exists v0.
  - simpl. unfold waypoints_cb, bind, get, modify, ret.
    destruct (got_waypoints self) eqn:E; simpl.
    + repeat split; try contradiction; [congruence|now exists v0].
    + repeat split; try contradiction; [discriminate|].
      exists v0. split; [exact Hv0|].
      destruct Hvalid as [H|(l & Hl & _)]; [now left|].
      rewrite (Hg eq_refl) in Hl. discriminate.
  - simpl. repeat split; try contradiction.
    + exact Hg.
    + now exists v0.
  - cbn [dispatch].
    destruct (image_cb_state now_time msg self)
      as [[Ha H]|[Ha [(Hf & Hst & Hpub & _)|
                      (wp & st & l1 & Hproc & Hp1 & Hf & Hres & Hst & Hpub)]]].
    + rewrite H. simpl. unfold image_branch. rewrite Ha.
      repeat split; try contradiction; [exact Hg|now exists v0].
    + rewrite Hst, Hpub, Hf.
      repeat split; try contradiction; [exact Hg|now exists v0].
    + rewrite Hst, Hpub, Hf, Hres.
      destruct (process_result_valid _ _ _ _ _ Hproc) as (i & Hi & Hiv).
      subst wp. rewrite debounce_eq.
      change (waypoints (frame_stored now_time msg self))
        with (waypoints self) in Hiv.
      destruct (which_branch (frame_stored now_time msg self) st).
      * simpl. repeat split; try contradiction; [exact Hg|now exists v0].
      * assert (Hd : exists d,
          (if st =? RED then Some i else Some (-1)) = Some d /\
          valid_wp (waypoints self) d).
        { destruct (st =? RED); [now exists i|].
          exists (-1). split; [reflexivity|now left]. }
        destruct Hd as (d & Hd & Hdv). cbv zeta. rewrite Hd. simpl.
        repeat split; [exact Hg|now exists d|].
        intros v [Hv|[]]. now subst v.
      * change (last_wp (frame_stored now_time msg self))
          with (last_wp self).
        rewrite Hv0. simpl.
        repeat split; [exact Hg|now exists v0|].
        intros v [Hv|[]]. now subst v.
Qed.

Lemma run_store_invariant (msgs : list Msg) (self : TLDetector) :
  store_invariant self -> store_invariant (fst (run self msgs)).
Proof.
  revert self. induction msgs as [|m rest IH]; intros self H.
  - exact H.
  - rewrite run_cons. apply IH.
    now destruct (dispatch_store_invariant m self H).
Qed.

Lemma reachable_store_invariant (self : TLDetector) :
  reachable self -> store_invariant self.
Proof.
  intros (now & cfg & msgs & Hr). subst self.
  apply run_store_invariant. split; [reflexivity|].
  exists (-1). split; [reflexivity|now left].
Qed.

(** X8.  Whatever a reachable node publishes on /traffic_waypoint is the
    sentinel [-1] or an index into the stored path: never a value outside
    the path, and never anything before a path is stored except [-1]. *)
Theorem published_is_sentinel_or_index :
  forall (self : TLDetector) (m : Msg) (v : Z),
    reachable self ->
    In v (published (snd (dispatch m self))) ->
    v = -1 \/
    exists wps,
      waypoints (snd (fst (dispatch m self))) = Some wps /\
      0 <= v < Z.of_nat (length wps).
Proof.
  intros self m v Hr Hv.
  destruct (dispatch_store_invariant m self (reachable_store_invariant _ Hr))
    as (_ & H & _).
  exact (H v Hv).
Qed.

(** X9.  A message to a reachable node publishes exactly one value when it
    is a camera frame that reaches branch 2 or branch 3 of the debounce
    logic, and nothing otherwise; and a frame that reaches the debounce
    logic always lets the handler return normally. *)
Theorem one_publish_per_debounced_frame :
  forall (self : TLDetector) (m : Msg),
    reachable self ->
    length (published (snd (dispatch m self))) =
      match fired m self with
      | Some Branch2 | Some Branch3 => 1%nat
      | _ => 0%nat
      end /\
    (fired m self <> None -> fst (fst (dispatch m self)) = Ok tt).
Proof.
  intros self m Hr.
  destruct (dispatch_store_invariant m self (reachable_store_invariant _ Hr))
    as (_ & _ & H1 & H2).
  split; assumption.
Qed.

(** ** When the confirmed colour changes *)

(** X10.  The confirmed colour [last_state] and the stored waypoint [last_wp]
    change only when a camera frame takes branch 2 of the debounce logic,
    which needs [state_count] to be at least [STATE_COUNT_THRESHOLD]; after
    branch 2 the confirmed colour equals the raw state. *)
Theorem confirmation_only_in_branch_2 :
  forall (self : TLDetector) (m : Msg),
    (fired m self <> Some Branch2 ->
     last_state (snd (fst (dispatch m self))) = last_state self /\
     last_wp (snd (fst (dispatch m self))) = last_wp self) /\
    (fired m self = Some Branch2 ->
     STATE_COUNT_THRESHOLD <= state_count self /\
     last_state (snd (fst (dispatch m self))) =
       state (snd (fst (dispatch m self)))).
Proof.
  intros self m. destruct m as [msg|wps|ls|now_time msg].
  - simpl. split; [intros _; split; reflexivity|discriminate].
  - simpl. unfold waypoints_cb, bind, get, modify, ret.
    destruct (got_waypoints self); simpl;
      (split; [intros _; split; reflexivity|discriminate]).
  - simpl. split; [intros _; split; reflexivity|discriminate].
  - cbn [dispatch].
    destruct (image_cb_state now_time msg self)
      as [[Ha H]|[Ha [(Hf & Hst & _)|
                      (wp & st & l1 & _ & _ & Hf & _ & Hst & _)]]].
    + rewrite H. simpl. unfold image_branch. rewrite Ha.
      split; [intros _; split; reflexivity|discriminate].
    + rewrite Hst, Hf. split; [intros _; split; reflexivity|discriminate].
    + rewrite Hst, Hf, debounce_eq.
      destruct (which_branch (frame_stored now_time msg self) st) eqn:E.
      * split; [intros _; split; reflexivity|discriminate].
      * split; [congruence|]. intros _.
        apply which_branch_2_inv in E. destruct E as [_ E].
        split; [exact E|].
        cbv zeta. destruct (if st =? RED then wp else Some (-1)); reflexivity.
      * split; [|discriminate]. intros _.
        destruct (last_wp (frame_stored now_time msg self));
          split; reflexivity.
Qed.

(** ** Identical readings in a row *)

Lemma feed_cons_eq (self : TLDetector) (wp c : Z) (rest : list (Z * Z)) :
  feed self ((wp, c) :: rest) =
  (fst (feed (snd (fst (debounce (Some wp) c self))) rest),
   published (snd (debounce (Some wp) c self))
   :: snd (feed (snd (fst (debounce (Some wp) c self))) rest)).
Proof.
  simpl. destruct (debounce (Some wp) c self) as [[r self1] l1]. simpl.
  now destruct (feed self1 rest).
Qed.

Lemma debounce_reading (self : TLDetector) (wp c d : Z) :
  last_wp self = Some d ->
  state (snd (fst (debounce (Some wp) c self))) = c /\
  (exists d', last_wp (snd (fst (debounce (Some wp) c self))) = Some d') /\
  (state self = c ->
   state_count (snd (fst (debounce (Some wp) c self))) = state_count self + 1) /\
  (state self <> c ->
   state_count (snd (fst (debounce (Some wp) c self))) = 1).
Proof.
  intros Hd. rewrite debounce_eq. unfold which_branch.
  destruct (state self =? c) eqn:E; simpl.
  - apply Z.eqb_eq in E.
    destruct (STATE_COUNT_THRESHOLD <=? state_count self).
    + destruct (c =? RED); simpl; repeat split; eauto; congruence.
    + rewrite Hd. simpl. repeat split; eauto; congruence.
  - apply Z.eqb_neq in E. repeat split; eauto; congruence.
Qed.

Lemma feed_same_colour (c : Z) (frames : list (Z * Z)) (self : TLDetector)
    (n d : Z) :
  Forall (fun f => snd f = c) frames ->
  state self = c -> last_wp self = Some d -> n <= state_count self ->
  state (fst (feed self frames)) = c /\
  (exists d', last_wp (fst (feed self frames)) = Some d') /\
  n + Z.of_nat (length frames) <= state_count (fst (feed self frames)).
Proof.
  intros Hall. revert self n d.
  induction Hall as [|[wp c0] rest Hc _ IH]; intros self n d Hs Hd Hn.
  - simpl. repeat split; eauto; lia.
  - simpl in Hc. subst c0. rewrite feed_cons_eq. cbn [fst].
    destruct (debounce_reading self wp c d Hd) as (H1 & (d' & H2) & H3 & _).
    specialize (H3 Hs).
    destruct (IH _ (n + 1) d' H1 H2) as (I1 & I2 & I3); [lia|].
    repeat split; [exact I1|exact I2|].
    cbn [length]. lia.
Qed.

(** X11.  Three readings with the same raw state are enough for the next
    one with that state to be published: from any state whose counter is
    not negative and whose stored waypoint is an int, after three or more
    readings of colour [c] a further reading of colour [c] publishes its
    waypoint if [c] is RED and [-1] otherwise, and confirms [c]. *)
Theorem identical_readings_confirm :
  forall (self : TLDetector) (frames : list (Z * Z)) (wp c d : Z),
    last_wp self = Some d ->
    0 <= state_count self ->
    Forall (fun f => snd f = c) frames ->
    (3 <= length frames)%nat ->
    published (snd (debounce (Some wp) c (fst (feed self frames)))) =
      [if c =? RED then wp else -1] /\
    last_state (snd (fst (debounce (Some wp) c (fst (feed self frames))))) = c.
Proof.
  intros self frames wp c d Hd Hn Hall Hlen.
  destruct frames as [|[wp0 c0] rest]; [simpl in Hlen; lia|].
  inversion Hall as [|? ? Hc Hrest]. simpl in Hc. subst.
  rewrite feed_cons_eq. cbn [fst].
  destruct (debounce_reading self wp0 c d Hd) as (H1 & (d' & H2) & H3 & H4).
  assert (Hone : 1 <= state_count (snd (fst (debounce (Some wp0) c self)))).
  { destruct (Z.eq_dec (state self) c) as [He|He];
      [rewrite (H3 He); lia|rewrite (H4 He); lia]. }
  destruct (feed_same_colour c rest _ 1 d' Hrest H1 H2 Hone)
    as (I1 & _ & I3).
  simpl in Hlen.
  rewrite debounce_eq, which_branch_2 by (assumption || lia).
  cbv zeta. rewrite I1.
  destruct (c =? RED); split; reflexivity.
Qed.

(** ** When [image_cb] returns normally *)

Lemma light_in_view_returns (self : TLDetector) (x y car_orient : float F)
    (light : TrafficLight) (d : float F) :
  distance (px (light_position light)) (py (light_position light)) x y
    = Ok d ->
  exists b, light_in_view self x y car_orient light = Ok b.
Proof.
  intros H. unfold light_in_view. rewrite H. eauto.
Qed.

(** X14.  A frame that passes the guard of a reachable node is handled
    without an exception when a path is stored, the classifier answers, no
    distance computation overflows and the closest-waypoint search cannot
    come up empty: in site mode some waypoint has both computed gaps to
    (8, 16.2) below [1e6]; in simulator mode a pose is stored, the distance
    of every registered light to the car and to every configured stop line
    is computed without OverflowError, and every configured stop line, and
    the origin, has a waypoint with both computed gaps below [1e6]. *)
Theorem image_cb_returns_normally :
  forall (self : TLDetector) (now_time : float F) (msg : Image)
         (wps : list Waypoint) (c : Z),
    reachable self ->
    accepts self now_time = true ->
    waypoints self = Some wps ->
    get_classification msg = Ok c ->
    (site self = true ->
     existsb (within_start site_stop_point) wps = true) ->
    (site self = false ->
     exists p,
       pose self = Some p /\
       (forall light,
          In light (lights self) ->
          (exists d,
             distance (px (light_position light)) (py (light_position light))
               (px (position p)) (py (position p)) = Ok d) /\
          (forall s,
             In s (stop_line_positions (config self)) ->
             exists d,
               distance (px (light_position light))
                 (py (light_position light)) (fst s) (snd s) = Ok d)) /\
       (forall q, stop_candidate self q ->
                  existsb (within_start q) wps = true)) ->
    fst (fst (image_cb now_time msg self)) = Ok tt.
Proof.
  intros self now_time msg wps c Hr Ha Hw Hc Hsite Hsim.
  destruct (dispatch_store_invariant (ImageColor now_time msg) self
              (reachable_store_invariant _ Hr)) as (_ & _ & Hok & _).
  apply Hok. cbn [fired]. unfold image_branch. rewrite Ha.
  set (fs := frame_stored now_time msg self).
  destruct (site self) eqn:Hs.
  - rewrite (process_traffic_lights_site fs wps Hw Hs).
    destruct (get_closest_waypoint_cases site_stop_point fs wps Hw)
      as [Hyes _].
    destruct (Hyes (Hsite eq_refl)) as (i & Hg). rewrite Hg.
    unfold fs at 1. rewrite get_light_state_stored, Hc. discriminate.
  - destruct (Hsim eq_refl) as (p & Hp & Hdist & Hall).
    rewrite (process_traffic_lights_simulator fs wps p Hw Hs Hp).
    change (lights fs) with (lights self).
    destruct (lights_scan fs (px (position p)) (py (position p))
                (car_orient_of p) (lights self))
      as [Hnone|(before & light & after & Hl & Hb & [Hv|(e & Hv)])].
    + rewrite (lights_loop_none _ _ _ _ fs Hnone). discriminate.
    + rewrite Hl, (lights_loop_first _ _ _ before after light fs Hb Hv).
      rewrite light_found_eq. unfold fs at 1.
      rewrite get_light_state_stored, Hc. fold fs.
      assert (Hin : In light (lights self)).
      { rewrite Hl. apply in_or_app. right. now left. }
      destruct (Hdist light Hin) as [_ Hstop].
      destruct (stop_line_loop_returns (px (light_position light))
                  (py (light_position light))
                  (stop_line_positions (config fs)) (flit F 1000000)
                  (mkPoint (flit F 0) (flit F 0)) Hstop) as (q & Hq).
      fold (stop_pose_of light fs) in Hq. rewrite Hq.
      destruct (get_closest_waypoint_cases q fs wps Hw) as [Hyes _].
      destruct (Hyes (Hall q (stop_pose_candidate light fs q Hq)))
        as (i & Hg).
      rewrite Hg. discriminate.
    + exfalso.
      assert (Hin : In light (lights self)).
      { rewrite Hl. apply in_or_app. right. now left. }
      destruct (Hdist light Hin) as [(d & Hd) _].
      destruct (light_in_view_returns fs _ _ (car_orient_of p) light d Hd)
        as (b & Hb'). congruence.
Qed.

(** ** [get_light_state] outside [image_cb] *)

Lemma debounce_frame_image (light_wp : option Z) (state_in : Z)
    (self : TLDetector) :
  has_image (snd (fst (debounce light_wp state_in self))) = has_image self /\
  camera_image (snd (fst (debounce light_wp state_in self))) =
    camera_image self.
Proof.
  rewrite debounce_eq.
  destruct (which_branch self state_in); simpl.
  - split; reflexivity.
  - destruct (if state_in =? RED then light_wp else Some (-1));
      split; reflexivity.
  - destruct (last_wp self); split; reflexivity.
Qed.

Lemma dispatch_frame_invariant (m : Msg) (self : TLDetector) :
  frame_invariant self -> frame_invariant (snd (fst (dispatch m self))).
Proof.
  intros H. destruct m as [msg|wps|ls|now_time msg]; simpl.
  - exact H.
  - unfold waypoints_cb, bind, get, modify, ret.
    destruct (got_waypoints self); exact H.
  - exact H.
  - destruct (image_cb_state now_time msg self)
      as [[_ E]|[_ [(_ & E & _)|(wp & st & l1 & _ & _ & _ & _ & E & _)]]];
      rewrite E.
    + exact H.
    + right. split; [reflexivity|now exists msg].
    + destruct (debounce_frame_image wp st (frame_stored now_time msg self))
        as [H1 H2].
      right. rewrite H1, H2. split; [reflexivity|now exists msg].
Qed.

Lemma run_frame_invariant (msgs : list Msg) (self : TLDetector) :
  frame_invariant self -> frame_invariant (fst (run self msgs)).
Proof.
  revert self. induction msgs as [|m rest IH]; intros self H.
  - exact H.
  - rewrite run_cons. apply IH. now apply dispatch_frame_invariant.
Qed.

(** X15.  In a reachable state [get_light_state] never returns [False]:
    before the first accepted frame the attribute [has_image] does not
    exist and the call raises AttributeError; afterwards it hands the stored
    frame to the classifier, once, with [processing_image] false. *)
Theorem get_light_state_never_returns_false :
  forall self : TLDetector,
    reachable self ->
    (has_image self = None /\
     get_light_state self = (Raise AttributeError, self, [])) \/
    (exists img,
       camera_image self = Some img /\
       get_light_state self =
         (get_classification img, self, [Classify img false])).
Proof.
  intros self Hr.
  pose proof (reachable_not_busy self Hr) as Hbusy.
  assert (Hf : frame_invariant self).
  { destruct Hr as (now & cfg & msgs & Hr). subst self.
    apply run_frame_invariant. left. split; reflexivity. }
  rewrite get_light_state_eq.
  destruct Hf as [[H1 H2]|[H1 (img & H2)]]; rewrite H1.
  - left. split; reflexivity.
  - right. exists img. rewrite H2, Hbusy. split; reflexivity.
Qed.
End Detector.

(** * Concrete runs

    The runs are on binary64 floats.  Frames are [tt]; the colour ids are
    those of styx_msgs (RED = 0, YELLOW = 1, GREEN = 2, UNKNOWN = 4).  The
    node is constructed at clock reading 1. *)

Set Warnings "-notation-for-abbreviation".

Notation always_red := (fun _ : unit => @Ok Z 0).
Notation faulty := (fun _ : unit => @Raise Z ClassifierFault).
Notation point x y := (mkPoint doubles (double_lit x) (double_lit y)).
Notation waypoint_at x y := (mkWaypoint doubles (point x y)).
Notation light_at x y := (mkLight doubles (point x y)).
Notation simulator_cfg :=
  (mkConfig doubles false [(double_lit 100, double_lit 0)]).
Notation site_cfg := (mkConfig doubles true []).
Notation fresh cfg := (init doubles unit 4 (double_lit 1) cfg).
Notation after gc cfg msgs := (fst (run doubles unit gc 0 (fresh cfg) msgs)).
Notation at_origin_facing_x :=
  (mkPose doubles (point 0 0) (double_lit 1) (double_lit 0)).
Notation path wps := (BaseWaypoints doubles unit wps).
Notation pose_at p := (CurrentPose doubles unit p).
Notation registry ls := (TrafficLights doubles unit ls).
Notation frame_at t := (ImageColor doubles unit (double_lit t) tt).

(** C1.  A frame that passes the guard while no path is stored makes
    [process_traffic_lights] return [None], and unpacking it raises
    TypeError, in simulator and in site mode; with a path but no pose, in
    simulator mode, reading [self.pose.pose] raises AttributeError.  Nothing
    is published and "no light found" is not reported. *)
Theorem missing_inputs_raise :
  image_cb doubles unit always_red 0 (double_lit 2) tt (fresh simulator_cfg) =
    (Raise TypeError,
     frame_stored doubles unit (double_lit 2) tt (fresh simulator_cfg), []) /\
  image_cb doubles unit always_red 0 (double_lit 2) tt (fresh site_cfg) =
    (Raise TypeError,
     frame_stored doubles unit (double_lit 2) tt (fresh site_cfg), []) /\
  image_cb doubles unit always_red 0 (double_lit 2) tt
    (after always_red simulator_cfg [path [waypoint_at 100 0]]) =
    (Raise AttributeError,
     frame_stored doubles unit (double_lit 2) tt
       (after always_red simulator_cfg [path [waypoint_at 100 0]]),
     []).
Proof.
  repeat split; vm_compute; reflexivity.
Qed.

(** C5.  With the one-waypoint path [(2000000, 0)] stored, the query point
    [(0, 0)] never passes the test [x < diff_x and y < diff_y], [ind] stays
    unbound and [return ind] raises UnboundLocalError. *)
Theorem closest_waypoint_far_raises :
  get_closest_waypoint doubles unit (point 0 0)
    (after always_red simulator_cfg [path [waypoint_at 2000000 0]]) =
  (Raise UnboundLocalError,
   after always_red simulator_cfg [path [waypoint_at 2000000 0]],
   []).
Proof.
  vm_compute. reflexivity.
Qed.

(** C7.  In site mode with a path stored, a classifier that raises makes
    [image_cb] raise the same fault: the debounce logic is not reached,
    nothing is published, and [state], [state_count] and [last_wp] stay as
    they were. *)
Theorem classifier_fault_propagates :
  image_cb doubles unit faulty 0 (double_lit 2) tt
    (after faulty site_cfg [path [waypoint_at 8 (81 # 5)]]) =
  (Raise ClassifierFault,
   frame_stored doubles unit (double_lit 2) tt
     (after faulty site_cfg [path [waypoint_at 8 (81 # 5)]]),
   [Classify unit tt false]).
Proof.
  vm_compute. reflexivity.
Qed.

(** C6, counterexample.  In simulator mode with a path and a pose but no
    light, a frame passes the guard and the handler returns normally without
    any classifier call; in site mode the classifier is called while
    [processing_image] is still false. *)
Lemma image_gate_counterexample :
  (accepts doubles unit
     (after always_red simulator_cfg
        [path [waypoint_at 100 0]; pose_at at_origin_facing_x])
     (double_lit 2) = true /\
   fst (fst (image_cb doubles unit always_red 0 (double_lit 2) tt
     (after always_red simulator_cfg
        [path [waypoint_at 100 0]; pose_at at_origin_facing_x]))) = Ok tt /\
   classified unit (snd (image_cb doubles unit always_red 0 (double_lit 2) tt
     (after always_red simulator_cfg
        [path [waypoint_at 100 0]; pose_at at_origin_facing_x]))) = []) /\
  classified unit (snd (image_cb doubles unit always_red 0 (double_lit 2) tt
    (after always_red site_cfg [path [waypoint_at 8 (81 # 5)]]))) =
    [(tt, false)].
Proof.
  repeat split; vm_compute; reflexivity.
Qed.

(** C8, counterexample.  The car at the origin facing along x.  With a
    single light at [(100, 0)] the computed distance is 100 and the
    directional product is above 1, so the light lies within the closed
    interval, but the node reports no light.  With a single light at
    [(2^600, 0)] no light lies within the interval, and the node raises
    OverflowError on line 211 instead of reporting no light. *)
Lemma closed_interval_counterexample :
  (distance doubles (double_lit 100) (double_lit 0)
     (double_lit 0) (double_lit 0) = Ok (double_lit 100) /\
   flt doubles (double_lit 1)
     (fmul doubles (car_orient_of doubles at_origin_facing_x)
        (light_orient_of doubles (double_lit 0) (double_lit 0)
           (light_at 100 0))) = true /\
   process_traffic_lights doubles unit always_red
     (after always_red simulator_cfg
        [path [waypoint_at 100 0]; pose_at at_origin_facing_x;
         registry [light_at 100 0]]) =
   (Ok (Some (Some (-1), 4)),
    after always_red simulator_cfg
      [path [waypoint_at 100 0]; pose_at at_origin_facing_x;
       registry [light_at 100 0]],
    [])) /\
  process_traffic_lights doubles unit always_red
    (after always_red simulator_cfg
       [path [waypoint_at 100 0]; pose_at at_origin_facing_x;
        registry [mkLight doubles
                    (mkPoint doubles (FloatOps.Z.ldexp (double_lit 1) 600)
                       (double_lit 0))]]) =
  (Raise OverflowError,
   after always_red simulator_cfg
     [path [waypoint_at 100 0]; pose_at at_origin_facing_x;
      registry [mkLight doubles
                  (mkPoint doubles (FloatOps.Z.ldexp (double_lit 1) 600)
                     (double_lit 0))]],
   []).
Proof.
  repeat split; vm_compute; reflexivity.
Qed.

(** * The general theorems at concrete inputs *)

Lemma no_change_before_stable_witness :
  2 <> 0 /\
  exists older w1 w2 w3,
    [(42, 0); (42, 0); (42, 0)] = older ++ [(w1, 0); (w2, 0); (w3, 0)].
Proof.
  split; [discriminate|].
  destruct (no_change_before_stable doubles unit 0 4 (double_lit 1)
              site_cfg 2) as [G _]; [discriminate|].
  apply (G [(42, 0); (42, 0); (42, 0)] 42 0 42).
  - vm_compute. reflexivity.
  - vm_compute. discriminate.
Defined.

Lemma four_reds_publish_42_witness :
  0 <> 4 /\
  snd (feed doubles unit 0 (fresh site_cfg) (repeat (42, 0) 4)) =
    [[]; [-1]; [-1]; [42]].
Proof.
  split; [discriminate|].
  destruct (four_reds_publish_42 doubles unit 0 4)
    with (now := double_lit 1) (cfg := site_cfg) as [G _]; [discriminate|].
  exact (proj2 (G 0%nat)).
Defined.

Lemma published_nonneg_only_when_red_witness :
  last_state doubles unit
    (snd (fst (dispatch doubles unit always_red 0 (frame_at 5)
      (after always_red site_cfg
         [path [waypoint_at 8 (81 # 5)];
          frame_at 2; frame_at 3; frame_at 4])))) = 0.
Proof.
  apply (proj2 (published_nonneg_only_when_red doubles unit always_red 0 4
    (after always_red site_cfg
       [path [waypoint_at 8 (81 # 5)]; frame_at 2; frame_at 3; frame_at 4])
    (frame_at 5) 0
    (ex_intro _ (double_lit 1) (ex_intro _ site_cfg (ex_intro _
       [path [waypoint_at 8 (81 # 5)]; frame_at 2; frame_at 3; frame_at 4]
       eq_refl)))
    (or_introl eq_refl))).
  discriminate.
Defined.

Lemma sentinel_until_first_confirmation_witness :
  Forall (fun v => v = -1)
    (published unit
       (snd (run doubles unit always_red 0 (fresh site_cfg)
          [path [waypoint_at 8 (81 # 5)];
           frame_at 2; frame_at 3; frame_at 4]))).
Proof.
  apply (sentinel_until_first_confirmation doubles unit always_red 0 4
           (double_lit 1) site_cfg).
  vm_compute. intros H.
  repeat (destruct H as [H|H]; [discriminate H|]). exact H.
Defined.

(** A node constructed at 1.0 drops the frame stamped 1.1, since
    [1.1 > 1.0 + 0.1] is false on doubles; in site mode the frame stamped 2
    is classified once. *)
Lemma image_gate_witness :
  image_cb doubles bool (fun _ : bool => Ok 0) 0 (double_lit (11 # 10)) true
    (init doubles bool 4 (double_lit 1) site_cfg) =
    (Ok tt, init doubles bool 4 (double_lit 1) site_cfg, []) /\
  map fst
    (classified bool
       (snd (image_cb doubles bool (fun _ : bool => Ok 0) 0 (double_lit 2) true
          (fst (run doubles bool (fun _ : bool => Ok 0) 0
             (init doubles bool 4 (double_lit 1) site_cfg)
             [BaseWaypoints doubles bool [waypoint_at 8 (81 # 5)];
              ImageColor doubles bool (double_lit (3 # 2)) false]))))) =
    [true].
Proof.
  split.
  - apply (proj1 (proj2 (image_gate doubles bool (fun _ : bool => Ok 0) 0 4
                           (init doubles bool 4 (double_lit 1) site_cfg)
                           (double_lit (11 # 10)) true))).
    vm_compute. reflexivity.
  - destruct (image_gate doubles bool (fun _ : bool => Ok 0) 0 4
      (fst (run doubles bool (fun _ : bool => Ok 0) 0
         (init doubles bool 4 (double_lit 1) site_cfg)
         [BaseWaypoints doubles bool [waypoint_at 8 (81 # 5)];
          ImageColor doubles bool (double_lit (3 # 2)) false]))
      (double_lit 2) true) as (_ & _ & _ & _ & G).
    destruct (G ltac:(vm_compute; reflexivity) [waypoint_at 8 (81 # 5)]
                eq_refl) as [Gsite _].
    apply Gsite; vm_compute; reflexivity.
Defined.

(** Three lights ahead of a car at the origin, at distances 150, 60 and 50,
    with stop lines and waypoints at the last two: the light at 150 is
    passed over, the light at 60 is selected although the one at 50 is
    closer, and the result is the waypoint of its stop line with the
    classifier's colour. *)
Lemma first_light_in_view_wins_witness :
  process_traffic_lights doubles unit always_red
    (fst (run doubles unit always_red 0
       (init doubles unit 4 (double_lit 1)
          (mkConfig doubles false
             [(double_lit 50, double_lit 0); (double_lit 60, double_lit 0)]))
       [path [waypoint_at 50 5; waypoint_at 60 0];
        pose_at at_origin_facing_x;
        registry [light_at 150 0; light_at 60 0; light_at 50 0];
        frame_at 2])) =
  (Ok (Some (Some 1, 0)),
   fst (run doubles unit always_red 0
       (init doubles unit 4 (double_lit 1)
          (mkConfig doubles false
             [(double_lit 50, double_lit 0); (double_lit 60, double_lit 0)]))
       [path [waypoint_at 50 5; waypoint_at 60 0];
        pose_at at_origin_facing_x;
        registry [light_at 150 0; light_at 60 0; light_at 50 0];
        frame_at 2]),
   [Classify unit tt false]).
Proof.
  destruct (first_light_in_view_wins doubles unit always_red
    (fst (run doubles unit always_red 0
       (init doubles unit 4 (double_lit 1)
          (mkConfig doubles false
             [(double_lit 50, double_lit 0); (double_lit 60, double_lit 0)]))
       [path [waypoint_at 50 5; waypoint_at 60 0];
        pose_at at_origin_facing_x;
        registry [light_at 150 0; light_at 60 0; light_at 50 0];
        frame_at 2]))
    [waypoint_at 50 5; waypoint_at 60 0] at_origin_facing_x
    eq_refl eq_refl eq_refl eq_refl eq_refl) as (_ & _ & _ & G & _).
  rewrite (G [light_at 150 0] (light_at 60 0) [light_at 50 0]).
  - vm_compute. reflexivity.
  - reflexivity.
  - constructor; [vm_compute; reflexivity|constructor].
  - vm_compute. reflexivity.
Defined.

(** * Further theorems at concrete inputs *)

Lemma constants_never_change_witness :
  max_look_ahead_distance doubles unit
    (after always_red site_cfg [frame_at 2]) = double_lit 100 /\
  min_look_ahead_distance doubles unit
    (after always_red site_cfg [frame_at 2]) = double_lit 25 /\
  site doubles unit (after always_red site_cfg [frame_at 2]) =
    is_site doubles
      (config doubles unit (after always_red site_cfg [frame_at 2])) /\
  processing_image doubles unit
    (after always_red site_cfg [frame_at 2]) = false.
Proof.
  apply (constants_never_change doubles unit always_red 0 4).
  exists (double_lit 1), site_cfg, [frame_at 2]. reflexivity.
Defined.

Lemma path_first_write_wins_witness :
  waypoints doubles unit
    (after always_red simulator_cfg
       [pose_at at_origin_facing_x;
        path [waypoint_at 1 1];
        path [waypoint_at 2 2]]) =
  Some [waypoint_at 1 1].
Proof.
  apply (proj2 (path_first_write_wins doubles unit always_red 0 4
    (double_lit 1) simulator_cfg
    [pose_at at_origin_facing_x]
    [path [waypoint_at 2 2]]
    [waypoint_at 1 1]
    (fun wps' H => match H with
                   | or_introl E => ltac:(discriminate E)
                   | or_intror F => F
                   end))).
Defined.

Lemma stores_hold_latest_witness :
  pose doubles unit
    (fst (run doubles unit always_red 0 (fresh site_cfg)
       [pose_at (mkPose doubles (point 5 5) (double_lit 0) (double_lit 1));
        pose_at at_origin_facing_x;
        frame_at 2])) = Some at_origin_facing_x.
Proof.
  apply (proj1 (stores_hold_latest doubles unit always_red 0
    (fresh site_cfg)
    [pose_at (mkPose doubles (point 5 5) (double_lit 0) (double_lit 1))]
    [frame_at 2])).
  intros msg' [H|[]]. discriminate H.
Defined.

(** Frames stamped 2, 3, 3.05 and 4 after construction at 1: the one
    stamped 3.05 is dropped, and the last frame that passed before the one
    stamped 4 is the one stamped 3. *)
Lemma accepted_frames_are_spaced_witness :
  flt doubles (fadd doubles (double_lit 3) (double_lit (1 # 10)))
    (double_lit 4) = true /\
  flt doubles (fadd doubles (double_lit 2) (double_lit (1 # 10)))
    (double_lit 4) = true.
Proof.
  destruct (accepted_frames_are_spaced doubles unit always_red 0
              (fresh site_cfg) (double_lit 2) (double_lit 4) tt
              [frame_at 3; frame_at (61 # 20)]) as [G1 G2].
  - vm_compute. reflexivity.
  - vm_compute. reflexivity.
  - split; [exact G1|].
    apply (G2 doubles_flt_trans).
    intros a b Ha Hb.
    cbn [frame_stamps flat_map app In] in Ha, Hb.
    destruct Ha as [<-|[<-|[]]]; destruct Hb as [<-|[<-|[<-|[]]]];
      intros H; vm_compute; vm_compute in H;
      first [reflexivity | discriminate H].
Defined.

Lemma get_closest_waypoint_result_witness :
  exists i,
    get_closest_waypoint doubles unit (point 2 2)
      (after always_red site_cfg [path [waypoint_at 1 1; waypoint_at 3 3]]) =
    (Ok (Some i),
     after always_red site_cfg [path [waypoint_at 1 1; waypoint_at 3 3]],
     []) /\
    0 <= i < Z.of_nat (length [waypoint_at 1 1; waypoint_at 3 3]).
Proof.
  apply (proj1 (get_closest_waypoint_result doubles unit (point 2 2)
    (after always_red site_cfg [path [waypoint_at 1 1; waypoint_at 3 3]])
    [waypoint_at 1 1; waypoint_at 3 3] eq_refl)).
  vm_compute. reflexivity.
Defined.

Lemma closest_waypoint_not_dominated_witness :
  exists w,
    nth_error [waypoint_at 5 5; waypoint_at 1 9; waypoint_at 2 2]
      (Z.to_nat 2) = Some w /\
    within_start doubles (point 0 0) w = true /\
    forall w',
      In w' [waypoint_at 5 5; waypoint_at 1 9; waypoint_at 2 2] ->
      flt doubles (x_gap doubles (point 0 0) w') (x_gap doubles (point 0 0) w)
      && flt doubles (y_gap doubles (point 0 0) w')
           (y_gap doubles (point 0 0) w) = false.
Proof.
  apply (closest_waypoint_not_dominated doubles unit
    doubles_flt_irrefl doubles_flt_trans (point 0 0)
    (after always_red site_cfg
       [path [waypoint_at 5 5; waypoint_at 1 9; waypoint_at 2 2]])
    (after always_red site_cfg
       [path [waypoint_at 5 5; waypoint_at 1 9; waypoint_at 2 2]])
    _ 2 [] eq_refl).
  vm_compute. reflexivity.
Defined.

(** A light at (60, 0) with stop lines at (50, 0), (58, 0) and (70, 0):
    the stop pose is the stop line at (58, 0). *)
Lemma stop_pose_is_nearest_stop_line_witness :
  (exists s d,
     In s [(double_lit 50, double_lit 0); (double_lit 58, double_lit 0);
           (double_lit 70, double_lit 0)] /\
     point 58 0 = mkPoint doubles (fst s) (snd s) /\
     distance doubles (double_lit 60) (double_lit 0) (fst s) (snd s) = Ok d /\
     flt doubles d (double_lit 1000000) = true /\
     forall s' d',
       In s' [(double_lit 50, double_lit 0); (double_lit 58, double_lit 0);
              (double_lit 70, double_lit 0)] ->
       distance doubles (double_lit 60) (double_lit 0) (fst s') (snd s')
         = Ok d' ->
       flt doubles d' d = false) \/
  (point 58 0 = point 0 0 /\
   forall s d,
     In s [(double_lit 50, double_lit 0); (double_lit 58, double_lit 0);
           (double_lit 70, double_lit 0)] ->
     distance doubles (double_lit 60) (double_lit 0) (fst s) (snd s) = Ok d ->
     flt doubles d (double_lit 1000000) = false).
Proof.
  apply (stop_pose_is_nearest_stop_line doubles unit
    doubles_flt_irrefl doubles_flt_trans (light_at 60 0)
    (init doubles unit 4 (double_lit 1)
       (mkConfig doubles false
          [(double_lit 50, double_lit 0); (double_lit 58, double_lit 0);
           (double_lit 70, double_lit 0)]))
    (point 58 0)).
  vm_compute. reflexivity.
Defined.

Lemma published_is_sentinel_or_index_witness :
  0 = -1 \/
  exists wps,
    waypoints doubles unit
      (snd (fst (dispatch doubles unit always_red 0 (frame_at 5)
        (after always_red site_cfg
           [path [waypoint_at 8 (81 # 5)];
            frame_at 2; frame_at 3; frame_at 4]))))
    = Some wps /\
    0 <= 0 < Z.of_nat (length wps).
Proof.
  apply (published_is_sentinel_or_index doubles unit always_red 0 4
    (after always_red site_cfg
       [path [waypoint_at 8 (81 # 5)]; frame_at 2; frame_at 3; frame_at 4])
    (frame_at 5) 0).
  - exists (double_lit 1), site_cfg,
      [path [waypoint_at 8 (81 # 5)]; frame_at 2; frame_at 3; frame_at 4].
    reflexivity.
  - vm_compute. left. reflexivity.
Defined.

Lemma one_publish_per_debounced_frame_witness :
  length (published unit
    (snd (dispatch doubles unit always_red 0 (frame_at 3)
      (after always_red site_cfg
         [path [waypoint_at 8 (81 # 5)]; frame_at 2])))) =
  match
    fired doubles unit always_red (frame_at 3)
      (after always_red site_cfg
         [path [waypoint_at 8 (81 # 5)]; frame_at 2])
  with
  | Some Branch2 | Some Branch3 => 1%nat
  | _ => 0%nat
  end.
Proof.
  apply (proj1 (one_publish_per_debounced_frame doubles unit always_red 0 4
    (after always_red site_cfg
       [path [waypoint_at 8 (81 # 5)]; frame_at 2])
    (frame_at 3)
    (ex_intro _ (double_lit 1) (ex_intro _ site_cfg (ex_intro _
       [path [waypoint_at 8 (81 # 5)]; frame_at 2] eq_refl))))).
Defined.

Lemma confirmation_only_in_branch_2_witness :
  last_state doubles unit
    (snd (fst (dispatch doubles unit always_red 0 (frame_at 2)
      (after always_red site_cfg [path [waypoint_at 8 (81 # 5)]])))) = 4 /\
  last_wp doubles unit
    (snd (fst (dispatch doubles unit always_red 0 (frame_at 2)
      (after always_red site_cfg [path [waypoint_at 8 (81 # 5)]])))) =
    Some (-1).
Proof.
  apply (proj1 (confirmation_only_in_branch_2 doubles unit always_red 0
    (after always_red site_cfg [path [waypoint_at 8 (81 # 5)]])
    (frame_at 2))).
  vm_compute. discriminate.
Defined.

Lemma identical_readings_confirm_witness :
  published unit
    (snd (debounce doubles unit 0 (Some 42) 0
       (fst (feed doubles unit 0 (fresh site_cfg)
               [(7, 0); (8, 0); (9, 0)])))) = [42] /\
  last_state doubles unit
    (snd (fst (debounce doubles unit 0 (Some 42) 0
       (fst (feed doubles unit 0 (fresh site_cfg)
               [(7, 0); (8, 0); (9, 0)]))))) = 0.
Proof.
  apply (identical_readings_confirm doubles unit 0 (fresh site_cfg)
           [(7, 0); (8, 0); (9, 0)] 42 0 (-1)).
  - reflexivity.
  - vm_compute. discriminate.
  - repeat constructor.
  - simpl. lia.
Defined.

(** A light at (2^600, 0) ahead of a light at (50, 0): the handler raises
    OverflowError before the classifier is reached. *)
Lemma classifier_called_iff_light_in_view_witness :
  classified unit
    (snd (image_cb doubles unit always_red 0 (double_lit 2) tt
      (after always_red simulator_cfg
         [path [waypoint_at 100 0]; pose_at at_origin_facing_x;
          registry [light_at 150 0; light_at 50 0]]))) = [(tt, false)] /\
  image_cb doubles unit always_red 0 (double_lit 2) tt
    (after always_red simulator_cfg
       [path [waypoint_at 100 0]; pose_at at_origin_facing_x;
        registry [mkLight doubles
                    (mkPoint doubles (FloatOps.Z.ldexp (double_lit 1) 600)
                       (double_lit 0));
                  light_at 50 0]]) =
  (Raise OverflowError,
   frame_stored doubles unit (double_lit 2) tt
     (after always_red simulator_cfg
        [path [waypoint_at 100 0]; pose_at at_origin_facing_x;
         registry [mkLight doubles
                     (mkPoint doubles (FloatOps.Z.ldexp (double_lit 1) 600)
                        (double_lit 0));
                   light_at 50 0]]),
   []).
Proof.
  split.
  - destruct (classifier_called_iff_light_in_view doubles unit always_red 0
      (after always_red simulator_cfg
         [path [waypoint_at 100 0]; pose_at at_origin_facing_x;
          registry [light_at 150 0; light_at 50 0]])
      (double_lit 2) tt [waypoint_at 100 0] at_origin_facing_x
      ltac:(vm_compute; reflexivity) eq_refl eq_refl eq_refl) as (G & _).
    apply (G [light_at 150 0] (light_at 50 0) []).
    + reflexivity.
    + constructor; [vm_compute; reflexivity|constructor].
    + vm_compute. reflexivity.
  - destruct (classifier_called_iff_light_in_view doubles unit always_red 0
      (after always_red simulator_cfg
         [path [waypoint_at 100 0]; pose_at at_origin_facing_x;
          registry [mkLight doubles
                      (mkPoint doubles (FloatOps.Z.ldexp (double_lit 1) 600)
                         (double_lit 0));
                    light_at 50 0]])
      (double_lit 2) tt [waypoint_at 100 0] at_origin_facing_x
      ltac:(vm_compute; reflexivity) eq_refl eq_refl eq_refl) as (_ & _ & G).
    apply (G [] (mkLight doubles
                   (mkPoint doubles (FloatOps.Z.ldexp (double_lit 1) 600)
                      (double_lit 0))) [light_at 50 0]).
    + reflexivity.
    + constructor.
    + vm_compute. reflexivity.
Defined.

(** The path [(8, 1000016.2)]: the computed gap [abs(16.2 - 1000016.2)] is
    [1e6], the test of line 147 fails and the handler raises. *)
Lemma site_mode_classifies_every_frame_witness :
  classified unit
    (snd (image_cb doubles unit always_red 0 (double_lit 2) tt
      (after always_red site_cfg
         [path [waypoint_at 8 (81 # 5)];
          registry [light_at 50 0]]))) = [(tt, false)] /\
  image_cb doubles unit always_red 0 (double_lit 2) tt
    (after always_red site_cfg [path [waypoint_at 8 (5000081 # 5)]]) =
  (Raise UnboundLocalError,
   frame_stored doubles unit (double_lit 2) tt
     (after always_red site_cfg [path [waypoint_at 8 (5000081 # 5)]]),
   []).
Proof.
  split.
  - apply (proj1 (site_mode_classifies_every_frame doubles unit always_red 0
      (after always_red site_cfg
         [path [waypoint_at 8 (81 # 5)]; registry [light_at 50 0]])
      (double_lit 2) tt [waypoint_at 8 (81 # 5)]
      ltac:(vm_compute; reflexivity) eq_refl eq_refl)).
    vm_compute. reflexivity.
  - apply (proj2 (site_mode_classifies_every_frame doubles unit always_red 0
      (after always_red site_cfg [path [waypoint_at 8 (5000081 # 5)]])
      (double_lit 2) tt [waypoint_at 8 (5000081 # 5)]
      ltac:(vm_compute; reflexivity) eq_refl eq_refl)).
    vm_compute. reflexivity.
Defined.

Lemma image_cb_returns_normally_witness :
  fst (fst (image_cb doubles unit always_red 0 (double_lit 2) tt
    (after always_red simulator_cfg
       [path [waypoint_at 100 0]; pose_at at_origin_facing_x;
        registry [light_at 50 0]]))) = Ok tt.
Proof.
  apply (image_cb_returns_normally doubles unit always_red 0 4
    (after always_red simulator_cfg
       [path [waypoint_at 100 0]; pose_at at_origin_facing_x;
        registry [light_at 50 0]])
    (double_lit 2) tt [waypoint_at 100 0] 0).
  - exists (double_lit 1), simulator_cfg,
      [path [waypoint_at 100 0]; pose_at at_origin_facing_x;
       registry [light_at 50 0]].
    reflexivity.
  - vm_compute. reflexivity.
  - reflexivity.
  - reflexivity.
  - intros H. vm_compute in H. discriminate H.
  - intros _. exists at_origin_facing_x. split; [reflexivity|]. split.
    + intros light [<-|[]]. split.
      * eexists. vm_compute. reflexivity.
      * intros s [<-|[]]. eexists. vm_compute. reflexivity.
    + intros q [Hq|(s & [Hs|[]] & Hq)]; subst; vm_compute; reflexivity.
Defined.

Lemma get_light_state_never_returns_false_witness :
  (has_image doubles unit (fresh site_cfg) = None /\
   get_light_state doubles unit always_red (fresh site_cfg) =
     (Raise AttributeError, fresh site_cfg, [])) \/
  (exists img,
     camera_image doubles unit (fresh site_cfg) = Some img /\
     get_light_state doubles unit always_red (fresh site_cfg) =
       (always_red img, fresh site_cfg, [Classify unit img false])).
Proof.
  apply (get_light_state_never_returns_false doubles unit always_red 0 4).
  exists (double_lit 1), site_cfg, []. reflexivity.
Defined.
